(** * Verification of [predict_imt.py]

    A shallow embedding of the intima-media-thickness prediction pipeline
    (weighted loss, single-sample predictor, batch diagnostic printer,
    full-dataframe predictor and the checks of the training orchestrator),
    followed by the theorems relating it to its specification.

    Conventions.
    - Python [str] is [string]; Python [int] is [Z]; a Python [dict] that is
      iterated ([target_columns]) is an association list in insertion order
      with pairwise distinct keys, a [dict] that is only indexed is a [gmap].
    - Exceptions are values of [exn]; code that mutates objects lives in the
      monad [M] over a [world] (object heap and call log).
    - Framework functions without source in the repository ([cv2.imread],
      [cv2.resize], [keras_backend.binary_crossentropy], numpy arithmetic)
      are section variables; a model is the function that its [predict]
      computes.
    - Floating-point numbers are exact: reals in the loss, rationals in
      images, predictions and dataframe cells. *)

From Stdlib Require Import ZArith QArith Reals Lra String Ascii List Strings.Byte.
From stdpp Require Import gmap strings list fin_maps pretty.

#[local] Set Warnings "-clear-no-such-hyp".

Local Open Scope string_scope.
Local Open Scope Z_scope.

(* ===================================================================== *)
(** * Python strings *)
(* ===================================================================== *)

Module PyStr.

(** ['sep'.join(parts)] *)
Fixpoint join (sep : string) (parts : list string) : string :=
  match parts with
  | [] => ""
  | [p] => p
  | p :: rest => p +:+ sep +:+ join sep rest
  end.

(** [s.replace(old, new)] for a non-empty [old]: the occurrences of [old]
    are found left to right and do not overlap.  [skip] counts the
    characters of a matched occurrence that are still to be consumed. *)
Fixpoint replace_from (old new : string) (skip : nat) (s : string) : string :=
  match s with
  | EmptyString => ""
  | String c s' =>
      match skip with
      | S k => replace_from old new k s'
      | O =>
          if String.prefix old s
          then new +:+ replace_from old new (String.length old - 1) s'
          else String c (replace_from old new 0 s')
      end
  end.

Definition replace (old new s : string) : string := replace_from old new 0 s.

(** [old in s] *)
Fixpoint occurs (old s : string) : bool :=
  match s with
  | EmptyString => String.prefix old ""
  | String _ s' => String.prefix old s || occurs old s'
  end.

(** The rest of [s] behind the prefix [p], when [s] starts with [p]. *)
Fixpoint strip_prefix (p s : string) : option string :=
  match p with
  | EmptyString => Some s
  | String a p' =>
      match s with
      | EmptyString => None
      | String b s' => if Ascii.eqb a b then strip_prefix p' s' else None
      end
  end.

(** [s] with its prefix [p] stripped ([s] itself when it has no such
    prefix). *)
Definition remove_prefix (p s : string) : string :=
  match strip_prefix p s with
  | Some rest => rest
  | None => s
  end.

(** ['{}'.format(n)] for an [int]. *)
Definition format_int (n : Z) : string := pretty n.

End PyStr.

(* ===================================================================== *)
(** * Target-column specification *)
(* ===================================================================== *)

(** One entry of [config.TARGET_COLUMNS]:
    [{'predict': bool, 'loss': <loss identifier>, 'weight': <scalar>}]. *)
Record target := Target {
  predict : bool;
  loss : string;
  weight : Q
}.

(** [target_columns]: a dict iterated with [.items()], in declaration
    order. *)
Abbreviation target_columns := (list (string * target)).

(** [[key for key, value in target_columns.items() if value['predict']]] *)
Definition enabled_names (tc : target_columns) : list string :=
  map fst (filter (fun kv => predict (snd kv) = true) tc).

(* ===================================================================== *)
(** * Experiment id (train_imt_predictor, "Define experiment id") *)
(* ===================================================================== *)

Module ExperimentId.

(** [output_id = '_'.join([key.replace('imt_', '') for key, value in
    target_columns.items() if value['predict']])] *)
Definition output_id (tc : target_columns) : string :=
  PyStr.join "_" (map (PyStr.replace "imt_" "") (enabled_names tc)).

(** [experiment_id = '{}_{}_{}_{}_{}'.format(prefix, database, input_type,
    input_shape[0], output_id)] *)
Definition experiment_id (prefix database input_type : string)
    (input_shape : Z * Z) (tc : target_columns) : string :=
  prefix +:+ "_" +:+ database +:+ "_" +:+ input_type +:+ "_" +:+
  PyStr.format_int (fst input_shape) +:+ "_" +:+ output_id tc.

(** The id as the specification words it: the five components joined by
    underscores, the last being the enabled names, each with its ["imt_"]
    prefix stripped, joined by underscores. *)
Definition spec_experiment_id (prefix database input_type : string)
    (input_shape : Z * Z) (tc : target_columns) : string :=
  PyStr.join "_"
    [prefix; database; input_type; PyStr.format_int (fst input_shape);
     PyStr.join "_" (map (PyStr.remove_prefix "imt_") (enabled_names tc))].

(** A name in which ["imt_"] occurs at most once, as its prefix. *)
Definition imt_only_prefix (name : string) : bool :=
  negb (PyStr.occurs "imt_" (PyStr.remove_prefix "imt_" name)).

(** The example of the specification. *)
Definition example_targets : target_columns :=
  [("imt_max", Target true "mse" 1%Q);
   ("plaque", Target true "weighted_bce" (1 # 2)%Q)].

End ExperimentId.

(* ===================================================================== *)
(** * Weighted binary cross-entropy *)
(* ===================================================================== *)

Module Loss.

(** A tensor is the list of its elements, in one fixed order for all
  tensors of one shape. *)
Abbreviation tensor := (list R).

Section WeightedBce.
Local Open Scope R_scope.

(** [keras_backend.binary_crossentropy] works element by element; the
    function it applies to one label and one predicted probability is the
    parameter [bce_elem]. *)
Variable bce_elem : R -> R -> R.

(** [keras_backend.binary_crossentropy(y_true, y_pred)] *)
Definition binary_crossentropy (y_true y_pred : tensor) : tensor :=
  zip_with bce_elem y_true y_pred.

(** [weights = (y_true * 10.) + 1.] *)
Definition weights (y_true : tensor) : tensor :=
  map (fun t => t * 10 + 1) y_true.

(** [bce * weights] *)
Definition weighted_terms (y_true y_pred : tensor) : tensor :=
  zip_with Rmult (binary_crossentropy y_true y_pred) (weights y_true).

Definition sum (xs : tensor) : R := fold_right Rplus 0 xs.

(** [keras_backend.mean(x)]: the mean over all elements. *)
Definition mean (xs : tensor) : R := sum xs / INR (length xs).

(** The weight of one element as the specification words it: 11 for the
    positive class (label 1), 1 for the negative class. *)
Definition spec_class_weight (label : R) : R :=
  if Req_dec_T label 1 then 11 else 1.

(** The loss as the specification words it: the mean over all elements of
    the element's cross-entropy scaled by its class weight. *)
Definition spec_weighted_bce (y_true y_pred : tensor) : R :=
  sum (zip_with (fun t p => spec_class_weight t * bce_elem t p) y_true y_pred)
  / INR (length y_true).

(** [weighted_bce(y_true, y_pred)] *)
Definition weighted_bce (y_true y_pred : tensor) : R :=
  let weights := weights y_true in
  let bce := binary_crossentropy y_true y_pred in
  mean (zip_with Rmult bce weights).

End WeightedBce.

(** The cross-entropy of one element, without the clipping of the
    framework. *)
Definition plain_bce (t p : R) : R := (- (t * ln p + (1 - t) * ln (1 - p)))%R.

End Loss.

(* ===================================================================== *)
(** * Values, arrays, exceptions *)
(* ===================================================================== *)

(** A numpy array (or a nested Python list of numbers). *)
#[warnings="-register-all"]
Inductive ndarray :=
| Num (q : Q)
| Arr (items : list ndarray).

(** A two-dimensional float array, row by row. *)
Abbreviation gray := (list (list Q)).

Definition nd_of_gray (a : gray) : ndarray := Arr (map (fun row => Arr (map Num row)) a).

(** Dynamically typed Python values held in dataframe cells and passed as
    paths. *)
Inductive pyval :=
| PNone
| PStr (s : string)
| PInt (z : Z)
| PFloat (q : Q)
| PNaN
| PArr (a : ndarray)
| PDict (d : gmap string ndarray).

(** The exceptions of the modelled code.  [DanglingReference] has no Python
    counterpart: it is the result of reading a location that holds no
    object, which no Python reference can be. *)
Inductive exn :=
| KeyError (key : string)
| IndexError
| TypeError
| ValueError
| UnboundLocalError (var : string)
| ZeroDivisionError
| SystemError (msg : string)
| NotImplementedError
| DanglingReference.

(** Code without effects other than exceptions lives in [sum exn]. *)
#[global] Instance exn_ret : MRet (sum exn) := fun A (x : A) => inr x.

#[global] Instance exn_bind : MBind (sum exn) := fun A B (f : A -> exn + B) (c : exn + A) =>
  match c with
  | inl e => inl e
  | inr x => f x
  end.

(** [for x in xs: s = body(s, x)], for a body without effects *)
Fixpoint for_each_pure {S X} (xs : list X) (body : S -> X -> exn + S) (s : S) : exn + S :=
  match xs with
  | [] => inr s
  | x :: rest =>
      match body s x with
      | inl e => inl e
      | inr s' => for_each_pure rest body s'
      end
  end.

Module Np.

(** [a[i]] *)
Definition getitem (a : ndarray) (i : nat) : exn + ndarray :=
  match a with
  | Num _ => inl IndexError
  | Arr items =>
      match items !! i with
      | Some x => inr x
      | None => inl IndexError
      end
  end.

(** [np.expand_dims(a, axis=0)] *)
Definition expand_dims0 (a : ndarray) : ndarray := Arr [a].

(** [np.squeeze(a)]: every axis of length one is removed. *)
Fixpoint squeeze (a : ndarray) : ndarray :=
  match a with
  | Num q => Num q
  | Arr [x] => squeeze x
  | Arr items => Arr (map squeeze items)
  end.

(** [uint8_array / 255.] *)
Definition div255 (a : list (list byte)) : gray :=
  map (map (fun b => Qred ((Z.of_N (Byte.to_N b) # 1) / 255))%Q) a.

(** [a.flat]: the elements of an array, in row-major order. *)
Fixpoint flat (a : ndarray) : list Q :=
  match a with
  | Num q => [q]
  | Arr items => flat_map flat items
  end.

(** [np.dstack((a, b))] for two-dimensional [a] and [b]: element [i, j]
    of the result is the pair [a[i, j], b[i, j]]; arrays of different
    shapes are refused. *)
Definition dstack (a b : gray) : exn + ndarray :=
  if decide (map length a = map length b)
  then inr (Arr (zip_with (fun ra rb => Arr (zip_with (fun x y => Arr [Num x; Num y]) ra rb)) a b))
  else inl ValueError.

End Np.

(* ===================================================================== *)
(** * Objects, effects and the monad *)
(* ===================================================================== *)

(** A pandas dataframe: its index labels and its columns, each column one
    cell per row. *)
Record DataFrame := mkDataFrame {
  df_index : list pyval;
  df_columns : gmap string (list pyval)
}.

(** Calls that leave the program, in the order in which they happen. *)
Inductive event :=
| EvImread (path : pyval)
| EvPredict (batch : ndarray)
| EvNext (k : nat)
| EvShow (image : ndarray)
| EvPrint (label : string) (value : option ndarray).

Definition loc := positive.

(** The object heap (dataframes are shared, mutable objects) and the log of
    calls. *)
Record world := mkWorld {
  heap : gmap loc DataFrame;
  log : list event
}.

Definition M (A : Type) : Type := world -> (exn + A) * world.

#[global] Instance M_ret : MRet M := fun A (x : A) w => (inr x, w).

#[global] Instance M_bind : MBind M := fun A B (f : A -> M B) (c : M A) w =>
  match c w with
  | (inl e, w') => (inl e, w')
  | (inr x, w') => f x w'
  end.

Definition raise {A} (e : exn) : M A := fun w => (inl e, w).

(** An operation that cannot touch the world but may raise. *)
Definition lift {A} (r : exn + A) : M A := fun w => (r, w).

Definition emit (ev : event) : M unit :=
  fun w => (inr tt, mkWorld (heap w) (log w ++ [ev])).

Definition deref (l : loc) : M DataFrame := fun w =>
  match heap w !! l with
  | Some df => (inr df, w)
  | None => (inl DanglingReference, w)
  end.

Definition assign (l : loc) (df : DataFrame) : M unit :=
  fun w => (inr tt, mkWorld (<[l := df]> (heap w)) (log w)).

(** The result and the events of a computation started in the empty
    world. *)
Definition empty_world : world := mkWorld ∅ [].
Definition result_of {A} (c : M A) : exn + A := fst (c empty_world).
Definition events_of {A} (c : M A) : list event := log (snd (c empty_world)).

(** The world after some more events. *)
Definition after (w : world) (evs : list event) : world :=
  mkWorld (heap w) (log w ++ evs).

(** A computation is log-only when, from every world, it gives the same
    result, leaves the heap alone and appends the same events. *)
Definition log_only {A} (c : M A) : Prop :=
  forall w, c w = (result_of c, after w (events_of c)).

(** [for x in xs: s = body(s, x)] *)
Fixpoint for_each {S X} (xs : list X) (body : S -> X -> M S) (s : S) : M S :=
  match xs with
  | [] => mret s
  | x :: rest => s' ← body s x; for_each rest body s'
  end.

Module Pd.

Definition nrows (df : DataFrame) : nat := length (df_index df).

(** [df[name]] *)
Definition getitem (df : DataFrame) (name : string) : exn + list pyval :=
  match df_columns df !! name with
  | Some col => inr col
  | None => inl (KeyError name)
  end.

(** [df[name] = values] with a list of values: the column is added, or
    replaced when the dataframe has one of that name. *)
Definition setitem (df : DataFrame) (name : string) (values : list pyval)
    : exn + DataFrame :=
  if decide (length values = nrows df)
  then inr (mkDataFrame (df_index df) (<[name := values]> (df_columns df)))
  else inl ValueError.

(** [row[name]] for the row at position [r] of [df.iterrows()] *)
Definition row_getitem (df : DataFrame) (r : nat) (name : string) : exn + pyval :=
  match df_columns df !! name with
  | Some col =>
      match col !! r with
      | Some v => inr v
      | None => inl (KeyError name)
      end
  | None => inl (KeyError name)
  end.

(** [series.apply(f)] *)
Fixpoint apply (f : pyval -> exn + pyval) (col : list pyval) : exn + list pyval :=
  match col with
  | [] => inr []
  | v :: rest => v' ← f v; rest' ← apply f rest; mret (v' :: rest')
  end.

End Pd.

(* ===================================================================== *)
(** * Single-sample predictor and full-dataframe predictor *)
(* ===================================================================== *)

(** A model maps a batch to its prediction: the array (or list) of its
    output heads. *)
Definition Model := ndarray -> ndarray.

Definition is_not_none (v : pyval) : bool :=
  match v with
  | PNone => false
  | _ => true
  end.

(** ['predicted_{}'.format(key)] *)
Definition predicted_name (key : string) : string := "predicted_" +:+ key.

Section Predictor.

(** [cv2.imread(path, cv2.IMREAD_GRAYSCALE)]: the 8-bit grayscale image
    stored under [path], [None] when nothing can be read there. *)
Variable imread : string -> option (list (list byte)).

(** [cv2.resize(image, input_shape)] *)
Variable resize : gray -> Z * Z -> gray.

(** [cv2.resize(cv2.imread(path, cv2.IMREAD_GRAYSCALE) / 255., input_shape)];
    [None / 255.] is a [TypeError], and so is a path that is no string. *)
Definition load_gray (path : pyval) (input_shape : Z * Z) : M gray :=
  emit (EvImread path);;
  match path with
  | PStr p =>
      match imread p with
      | Some pixels => mret (resize (Np.div255 pixels) input_shape)
      | None => raise TypeError
      end
  | _ => raise TypeError
  end.

(** The body of the loop [for key, value in target_columns.items()] of
    [nn_predict_imt], on the state [(result, count)]. *)
Definition unpack_step (prediction : ndarray)
    : gmap string ndarray * nat -> string * target
      -> exn + (gmap string ndarray * nat) :=
  fun '(result, count) '(key, value) =>
    if predict value
    then head ← Np.getitem prediction count;
         mret (<[key := Np.squeeze head]> result, S count)
    else mret (result, count).

(** [result = {}; count = 0; for key, value in target_columns.items(): ...] *)
Definition unpack_heads (prediction : ndarray) (tc : target_columns)
    : exn + (gmap string ndarray * nat) :=
  for_each_pure tc (unpack_step prediction) (∅, 0%nat).

(** The first part of [nn_predict_imt] (the three [if]s): the value of
    the local [input_data] when [model.predict] is reached.  The locals
    [img], [mask] and [input_data] are unbound until assigned: [None]
    stands for an unbound local, and reading one is an
    [UnboundLocalError]. *)
Definition input_data_of (img_path mask_path : pyval) (input_shape : Z * Z)
    : M ndarray :=
  '(img, input_data) ←
    (if is_not_none img_path
     then img ← load_gray img_path input_shape;
          mret (Some img, Some (nd_of_gray img))
     else mret (None, None));
  '(mask, input_data) ←
    (if is_not_none mask_path
     then mask ← load_gray mask_path input_shape;
          mret (Some mask, Some (nd_of_gray mask))
     else mret (None, input_data));
  input_data ←
    (if is_not_none img_path && is_not_none mask_path
     then match img, mask with
          | Some img, Some mask =>
              stacked ← lift (Np.dstack img mask); mret (Some stacked)
          | None, _ => raise (UnboundLocalError "img")
          | _, None => raise (UnboundLocalError "mask")
          end
     else mret input_data);
  match input_data with
  | Some d => mret d
  | None => raise (UnboundLocalError "input_data")
  end.

(** [nn_predict_imt(img_path, mask_path, model, input_shape,
    target_columns)] *)
Definition nn_predict_imt (img_path mask_path : pyval) (model : Model)
    (input_shape : Z * Z) (tc : target_columns) : M (gmap string ndarray) :=
  input_data ← input_data_of img_path mask_path input_shape;
  emit (EvPredict (Np.expand_dims0 input_data));;
  let prediction := model (Np.expand_dims0 input_data) in
  '(result, _) ← lift (unpack_heads prediction tc);
  mret result.

(** [x[key]] for a cell of the [nn_prediction] column *)
Definition cell_getitem (key : string) (x : pyval) : exn + pyval :=
  match x with
  | PDict d =>
      match d !! key with
      | Some v => inr (PArr v)
      | None => inl (KeyError key)
      end
  | _ => inl TypeError
  end.

(** [dataframe[name] = values] on the dataframe object at [l] *)
Definition setitem_at (l : loc) (name : string) (values : list pyval) : M unit :=
  df ← deref l;
  df' ← lift (Pd.setitem df name values);
  assign l df'.

(** [img_path = None if input_column == 'mask_path' else row['complete_path']] *)
Definition row_img_path (input_column : string) (df : DataFrame) (r : nat) : exn + pyval :=
  if String.eqb input_column "mask_path" then inr PNone
  else Pd.row_getitem df r "complete_path".

(** [mask_path = None if input_column == 'complete_path' else row['mask_path']] *)
Definition row_mask_path (input_column : string) (df : DataFrame) (r : nat) : exn + pyval :=
  if String.eqb input_column "complete_path" then inr PNone
  else Pd.row_getitem df r "mask_path".

(** The body of [for index, row in dataframe.iterrows()], for the row at
    position [r]. *)
Definition predict_row (model : Model) (input_column : string)
    (tc : target_columns) (input_shape : Z * Z) (df : DataFrame)
    (nn_predictions : list pyval) (r : nat) : M (list pyval) :=
  img_path ← lift (row_img_path input_column df r);
  mask_path ← lift (row_mask_path input_column df r);
  p ← nn_predict_imt img_path mask_path model input_shape tc;
  mret (nn_predictions ++ [PDict p])%list.

(** The body of the second loop, [for key, value in
    target_columns.items()]. *)
Definition set_predicted_column (dataframe : loc) (_ : unit)
    (item : string * target) : M unit :=
  let '(key, value) := item in
  if predict value
  then let prediction_column_name := predicted_name key in
       df ← deref dataframe;
       col ← lift (Pd.getitem df "nn_prediction");
       new ← lift (Pd.apply (cell_getitem key) col);
       setitem_at dataframe prediction_column_name new
  else mret tt.

(** [predict_complete_dataframe(model, dataframe, input_column,
    target_columns, input_shape)]; [dataframe] is a reference to the
    caller's object. *)
Definition predict_complete_dataframe (model : Model) (dataframe : loc)
    (input_column : string) (tc : target_columns) (input_shape : Z * Z) : M loc :=
  emit (EvPrint "Predicting values from the complete dataframe, this could take a while" None);;
  df ← deref dataframe;
  nn_predictions ←
    for_each (seq 0 (Pd.nrows df))
      (predict_row model input_column tc input_shape df) [];
  setitem_at dataframe "nn_prediction" nn_predictions;;
  for_each tc (set_predicted_column dataframe) tt;;
  mret dataframe.

(** The prediction mapping and the events of the call of
    [nn_predict_imt] for the row at position [r]. *)
Definition row_prediction (model : Model) (input_column : string)
    (tc : target_columns) (input_shape : Z * Z) (df : DataFrame) (r : nat)
    : exn + gmap string ndarray :=
  img_path ← row_img_path input_column df r;
  mask_path ← row_mask_path input_column df r;
  result_of (nn_predict_imt img_path mask_path model input_shape tc).

Definition row_events (model : Model) (input_column : string)
    (tc : target_columns) (input_shape : Z * Z) (df : DataFrame) (r : nat)
    : list event :=
  match row_img_path input_column df r, row_mask_path input_column df r with
  | inr img_path, inr mask_path =>
      events_of (nn_predict_imt img_path mask_path model input_shape tc)
  | _, _ => []
  end.

End Predictor.

(** Every column of [df] is a column of [df'], with the same cells. *)
Definition columns_preserved (df df' : DataFrame) : Prop :=
  forall c col, df_columns df !! c = Some col -> df_columns df' !! c = Some col.

(** The column of the components keyed [key] of a list of prediction
    mappings. *)
Definition predicted_col (key : string) (preds : list (gmap string ndarray))
    : list pyval :=
  map (fun p => match p !! key with Some v => PArr v | None => PNone end) preds.

(** The columns after one [predicted_<name>] column was set for each of
    [names], in that order. *)
Definition with_predicted (preds : list (gmap string ndarray))
    (names : list string) (cols : gmap string (list pyval))
    : gmap string (list pyval) :=
  fold_left (fun cols key => <[predicted_name key := predicted_col key preds]> cols)
    names cols.

(* ===================================================================== *)
(** * Batch diagnostic printer *)
(* ===================================================================== *)

(** A batch generator: its [batch_size] attribute and the batch that its
    [k]-th [next()] yields, [None] once it is exhausted.  Keras iterators
    never are. *)
Record generator := mkGenerator {
  batch_size : nat;
  batches : nat -> option (ndarray * ndarray)
}.

Section PlotPredictions.

(** [config.PREDICT_PLAQUE] *)
Variable PREDICT_PLAQUE : bool.

(** numpy arithmetic: [a - b], [a + b] and [a / n] *)
Variable np_sub : ndarray -> ndarray -> exn + ndarray.
Variable np_add : ndarray -> ndarray -> exn + ndarray.
Variable np_div : ndarray -> Z -> ndarray.

(** [y_batch[h][i]] *)
Definition target_of (y_batch : ndarray) (h i : nat) : exn + ndarray :=
  head ← Np.getitem y_batch h; Np.getitem head i.

(** The body of [for i in range(generator.batch_size)]. *)
Definition example_body (model : Model) (plot_images : bool)
    (x_batch y_batch : ndarray) (errors : list ndarray) (i : nat)
    : M (list ndarray) :=
  gt ←
    (if PREDICT_PLAQUE
     then g0 ← lift (target_of y_batch 0 i);
          g1 ← lift (target_of y_batch 1 i);
          g2 ← lift (target_of y_batch 2 i);
          mret (Arr [g0; g1; g2])
     else g0 ← lift (target_of y_batch 0 i);
          g1 ← lift (target_of y_batch 1 i);
          mret (Arr [g0; g1]));
  x ← lift (Np.getitem x_batch i);
  emit (EvPredict (Np.expand_dims0 x));;
  let pred := model (Np.expand_dims0 x) in
  let pred := Np.squeeze pred in
  error ← lift (np_sub gt pred);
  let errors := (errors ++ [error])%list in
  (if plot_images then emit (EvShow (Np.squeeze x)) else mret tt);;
  emit (EvPrint "GT:        " (Some gt));;
  emit (EvPrint "Predicted: " (Some pred));;
  emit (EvPrint "error:     " (Some error));;
  mret errors.

(** [for x_batch, y_batch in generator: ...] from the [k]-th batch on.
    The loop has no bound of its own, so the model takes [fuel]: the
    result is [None] when [fuel] iterations did not finish it. *)
Fixpoint batch_loop (fuel : nat) (model : Model) (gen : generator)
    (plot_images : bool) (k : nat) (loops : Z) (errors : list ndarray)
    (w : world) : option ((exn + list ndarray) * world) :=
  match fuel with
  | O => None
  | S fuel' =>
      match batches gen k with
      | None => Some (inr errors, w)
      | Some (x_batch, y_batch) =>
          match (emit (EvNext k);;
                 for_each (seq 0 (batch_size gen))
                   (example_body model plot_images x_batch y_batch) errors) w with
          | (inl e, w') => Some (inl e, w')
          | (inr errors', w') =>
              let loops := loops - 1 in
              if loops =? 0
              then Some (inr errors', w')
              else batch_loop fuel' model gen plot_images (S k) loops errors' w'
          end
      end
  end.

(** [sum(errors)]: Python's [sum] starts from the integer [0]. *)
Definition py_sum (errors : list ndarray) : exn + ndarray :=
  fold_left
    (fun acc e => match acc with inl x => inl x | inr a => np_add a e end)
    errors (inr (Num 0)).

(** [print('Mean error: {}'.format(sum(errors) / len(errors)))] *)
Definition print_mean_error (errors : list ndarray) : M unit :=
  total ← lift (py_sum errors);
  (if decide (length errors = 0%nat)
   then raise ZeroDivisionError
   else emit (EvPrint "Mean error: " (Some (np_div total (Z.of_nat (length errors)))))).

(** [plot_predictions(model, generator, plot_images, loops)] *)
Definition plot_predictions (fuel : nat) (model : Model) (gen : generator)
    (plot_images : bool) (loops : Z) (w : world) : option ((exn + unit) * world) :=
  match batch_loop fuel model gen plot_images 0 loops [] w with
  | None => None
  | Some (inl e, w') => Some (inl e, w')
  | Some (inr errors, w') => Some (print_mean_error errors w')
  end.

End PlotPredictions.

Definition is_next (ev : event) : bool :=
  match ev with EvNext _ => true | _ => false end.

Definition is_predict (ev : event) : bool :=
  match ev with EvPredict _ => true | _ => false end.

(** The number of batches fetched from the generator, read off the log. *)
Definition batches_consumed (evs : list event) : nat :=
  length (List.filter is_next evs).

(** The number of model runs, read off the log. *)
Definition model_runs (evs : list event) : nat :=
  length (List.filter is_predict evs).

(* ===================================================================== *)
(** * Training orchestrator: label derivation and checks *)
(* ===================================================================== *)

Module Train.

(** [lambda x: 1 if x >= 1.5 else 0].  Every comparison with NaN is
    false.  Comparing [None], a string or a dict with a float is a
    [TypeError].  Comparing an array gives an array of booleans, which the
    conditional takes as a truth value: that of its element when it has
    exactly one, [False] when it has none (with a deprecation warning in
    the NumPy releases TensorFlow 2.2 runs on), and a [ValueError] when
    it has more than one. *)
Definition plaque_label (x : pyval) : exn + pyval :=
  match x with
  | PFloat q => inr (PInt (if Qle_bool (3 # 2) q then 1 else 0))
  | PInt z => inr (PInt (if Qle_bool (3 # 2) (z # 1) then 1 else 0))
  | PNaN => inr (PInt 0)
  | PArr a =>
      match Np.flat a with
      | [] => inr (PInt 0)
      | [q] => inr (PInt (if Qle_bool (3 # 2) q then 1 else 0))
      | _ => inl ValueError
      end
  | PNone | PStr _ | PDict _ => inl TypeError
  end.

(** The rational value of a cell that holds a finite number. *)
Definition number_value (x : pyval) : option Q :=
  match x with
  | PFloat q => Some q
  | PInt z => Some (z # 1)
  | _ => None
  end.

(** A cell that holds a number: a finite one or NaN. *)
Definition is_number (x : pyval) : Prop :=
  is_Some (number_value x) \/ x = PNaN.

(** [df['gt_plaque'] = df['gt_imt_max'].apply(lambda x: 1 if x >= 1.5 else 0)] *)
Definition derive_gt_plaque (df : DataFrame) : exn + DataFrame :=
  col ← Pd.getitem df "gt_imt_max";
  labels ← Pd.apply plaque_label col;
  Pd.setitem df "gt_plaque" labels.

(** [if config.FORCE_GPU: ...] on [device_name = tf.test.gpu_device_name()] *)
Definition validate_device (FORCE_GPU : bool) (device_name : string)
    (silent_mode : bool) : M unit :=
  if FORCE_GPU
  then (if negb (String.eqb device_name "/device:GPU:0")
        then raise (SystemError "GPU device not found")
        else mret tt);;
       (if negb silent_mode
        then emit (EvPrint ("Found GPU at: " +:+ device_name) None)
        else mret tt)
  else mret tt.

(** [if input_type == 'img': ... else: raise NotImplementedError] *)
Definition resolve_input_column (input_type : string) : M string :=
  if String.eqb input_type "img" then mret "complete_path"
  else if String.eqb input_type "mask" then mret "mask_path"
  else if String.eqb input_type "img_and_mask" then mret input_type
  else raise NotImplementedError.

(** The two checks of [train_imt_predictor], in the order of the source;
    the result is [input_column]. *)
Definition device_and_modality (FORCE_GPU : bool) (device_name : string)
    (silent_mode : bool) (input_type : string) : M string :=
  validate_device FORCE_GPU device_name silent_mode;;
  resolve_input_column input_type.

End Train.

(* ===================================================================== *)
(** * Concrete inputs *)
(* ===================================================================== *)

Module Example.

(** A file system with two 2x2 grayscale images. *)
Definition imread (path : string) : option (list (list byte)) :=
  if String.eqb path "scans/a.png" then Some [[x00; xff]; [x80; x40]]
  else if String.eqb path "masks/a.png" then Some [[x00; x00]; [xff; xff]]
  else if String.eqb path "scans/b.png" then Some [[x10; x20]; [x30; x40]]
  else if String.eqb path "masks/b.png" then Some [[xff; x00]; [x00; xff]]
  else None.

(** Resizing an image that has the requested size already. *)
Definition resize (a : gray) (input_shape : Z * Z) : gray := a.

(** Sum of all elements of an array. *)
Fixpoint total (a : ndarray) : Q :=
  match a with
  | Num q => q
  | Arr items => fold_right (fun x acc => Qred (total x + acc)) 0%Q items
  end.

(** A model with two heads of shape (1, 1): the sum of the input and the
    constant 1/2. *)
Definition model : Model :=
  fun batch => Arr [Arr [Arr [Num (total batch)]]; Arr [Arr [Num (1 # 2)]]].

Definition targets : target_columns :=
  [("imt_max", Target true "mse" 1%Q);
   ("imt_avg", Target false "mse" 1%Q);
   ("plaque", Target true "weighted_bce" (1 # 2)%Q)].

(** A dataframe of two scans. *)
Definition scans : DataFrame :=
  mkDataFrame [PInt 0; PInt 1]
    {[ "complete_path" := [PStr "scans/a.png"; PStr "scans/b.png"];
       "mask_path" := [PStr "masks/a.png"; PStr "masks/b.png"];
       "gt_imt_max" := [PFloat (8 # 5); PFloat (7 # 10)] ]}.

(** The same scans after an earlier prediction run. *)
Definition scans_predicted : DataFrame :=
  mkDataFrame [PInt 0; PInt 1]
    (<["nn_prediction" := [PStr "stale"; PStr "stale"]]> (df_columns scans)).

Definition world1 : world := mkWorld {[ 1%positive := scans ]} [].
Definition world2 : world := mkWorld {[ 1%positive := scans_predicted ]} [].

(** Element-wise arithmetic on arrays of one shape, a scalar being
    broadcast. *)
Fixpoint nd_map (g : Q -> Q) (a : ndarray) : ndarray :=
  match a with
  | Num x => Num (Qred (g x))
  | Arr items => Arr (map (nd_map g) items)
  end.

Fixpoint nd_zip (f : Q -> Q -> Q) (a b : ndarray) : exn + ndarray :=
  match a with
  | Num x => inr (nd_map (f x) b)
  | Arr xs =>
      match b with
      | Num y => inr (Arr (map (nd_map (fun x => f x y)) xs))
      | Arr ys =>
          (fix go (xs ys : list ndarray) : exn + list ndarray :=
             match xs, ys with
             | [], [] => inr []
             | x :: xs', y :: ys' =>
                 match nd_zip f x y, go xs' ys' with
                 | inr z, inr zs => inr (z :: zs)
                 | inl e, _ => inl e
                 | _, inl e => inl e
                 end
             | _, _ => inl ValueError
             end) xs ys ≫= fun zs => inr (Arr zs)
      end
  end.

Definition np_sub : ndarray -> ndarray -> exn + ndarray := nd_zip Qminus.
Definition np_add : ndarray -> ndarray -> exn + ndarray := nd_zip Qplus.
Definition np_div (a : ndarray) (n : Z) : ndarray := nd_map (fun x => x / (n # 1))%Q a.

(** One batch of one 2x2 example with the targets 1 and 0. *)
Definition batch : ndarray * ndarray :=
  (Arr [Arr [Arr [Num 0; Num 1]; Arr [Num (1 # 2); Num (1 # 4)]]],
   Arr [Arr [Num 1]; Arr [Num 0]]).

(** A Keras iterator: it yields batches for ever. *)
Definition endless : generator := mkGenerator 1 (fun _ => Some batch).

(** A generator that is exhausted after two batches. *)
Definition two_batches : generator :=
  mkGenerator 1 (fun k => if (k <? 2)%nat then Some batch else None).

(** The prediction mappings of the rows of a dataframe of two rows. *)
Definition predictions (input_column : string) (df : DataFrame)
    : list (gmap string ndarray) :=
  map (fun r => match row_prediction imread resize model input_column targets
                        (2, 2) df r with
                | inr p => p
                | inl _ => ∅
                end)
      (seq 0 (Pd.nrows df)).

End Example.

(* ===================================================================== *)
(** * Further parts of the training orchestrator *)
(* ===================================================================== *)

Definition is_imread (ev : event) : bool :=
  match ev with EvImread _ => true | _ => false end.

Definition is_print (ev : event) : bool :=
  match ev with EvPrint _ _ => true | _ => false end.

(** The number of files read, read off the log. *)
Definition file_reads (evs : list event) : nat :=
  length (List.filter is_imread evs).

(** Every column has one cell per row. *)
Definition well_formed (df : DataFrame) : Prop :=
  forall name col, df_columns df !! name = Some col -> length col = Pd.nrows df.


Module Orchestrator.

(** [s[start:stop]] on a string: a negative bound counts from the end,
    and both bounds are clipped to the string. *)
Definition slice (start stop : Z) (s : string) : string :=
  let n := Z.of_nat (String.length s) in
  let clip i := if i <? 0 then Z.max (i + n) 0 else Z.min i n in
  let lo := clip start in
  let hi := clip stop in
  String.substring (Z.to_nat lo) (Z.to_nat (hi - lo)) s.

(** [l[start:stop]] on the items of a sequence, with the same bounds. *)
Definition slice_items {A : Type} (start stop : Z) (l : list A) : list A :=
  let n := Z.of_nat (length l) in
  let clip i := if i <? 0 then Z.max (i + n) 0 else Z.min i n in
  let lo := clip start in
  let hi := clip stop in
  take (Z.to_nat (hi - lo)) (drop (Z.to_nat lo) l).

(** [lambda x: x[4:-1]] on an index label.  A string is sliced, the
    characters of a [string] standing for the characters of the Python
    string; an array is sliced along its first axis, and an array without
    axes raises an [IndexError]; [None], a number and a dict cannot be
    sliced and raise a [TypeError].  Byte strings and tuples, which
    Python slices as well, are no values of [pyval]. *)
Definition trim_label (x : pyval) : exn + pyval :=
  match x with
  | PStr s => inr (PStr (slice 4 (-1) s))
  | PArr (Arr items) => inr (PArr (Arr (slice_items 4 (-1) items)))
  | PArr (Num _) => inl IndexError
  | PNone | PInt _ | PFloat _ | PNaN | PDict _ => inl TypeError
  end.

(** [df.index = df.index.map(lambda x: x[4:-1])] *)
Definition trim_index (df : DataFrame) : exn + DataFrame :=
  index ← Pd.apply trim_label (df_index df);
  mret (mkDataFrame index (df_columns df)).

(** [selected_columns = ['gt_' + key for key, value in
    target_columns.items() if value['predict']]] *)
Definition selected_columns (tc : target_columns) : list string :=
  map (fun key => "gt_" +:+ key) (enabled_names tc).

(** [n_outputs = len(selected_columns)] *)
Definition n_outputs (tc : target_columns) : nat := length (selected_columns tc).

(** An entry of the [metrics] of [model.compile]. *)
Inductive metric :=
| Recall (name : string)
| MetricName (name : string).

(** The body of the loop that collects [losses], [metrics] and
    [loss_weights]. *)
Definition compile_step
    (acc : list string * gmap string (list metric) * list Q)
    (item : string * target) : list string * gmap string (list metric) * list Q :=
  let '(losses, metrics, loss_weights) := acc in
  let '(key, value) := item in
  if predict value
  then let metrics :=
         if String.eqb key "plaque"
         then <["plaque" := [Recall "recall"; MetricName "accuracy"]]> metrics
         else metrics in
       ((losses ++ [loss value])%list, metrics, (loss_weights ++ [weight value])%list)
  else (losses, metrics, loss_weights).

(** [losses = []; metrics = {}; loss_weights = []; for key, value in
    target_columns.items(): ...] *)
Definition compile_args (tc : target_columns)
    : list string * gmap string (list metric) * list Q :=
  fold_left compile_step tc ([], ∅, []).

(** [a // b] on integers *)
Definition floordiv (a b : Z) : exn + Z :=
  if b =? 0 then inl ZeroDivisionError else inr (a / b).

(** [TRAINING_STEPS = train_generator.n // train_generator.batch_size] *)
Definition steps_per_epoch (n batch_size : Z) : exn + Z := floordiv n batch_size.

(** ['checkpoints/weights_{}.h5'.format(experiment_id)] *)
Definition weights_path (experiment_id : string) : string :=
  "checkpoints/weights_" +:+ experiment_id +:+ ".h5".

(** ['logs/run_{}.h5'.format(experiment_id)] *)
Definition log_dir (experiment_id : string) : string :=
  "logs/run_" +:+ experiment_id +:+ ".h5".

(** ['models/model_{}.h5'.format(experiment_id)] *)
Definition model_path (experiment_id : string) : string :=
  "models/model_" +:+ experiment_id +:+ ".h5".

End Orchestrator.

(* ===================================================================== *)
(** * Further concrete inputs *)
(* ===================================================================== *)

Module Example2.

(** Two scans, the second of which names a file that does not exist. *)
Definition scans_broken : DataFrame :=
  mkDataFrame [PInt 0; PInt 1]
    {[ "complete_path" := [PStr "scans/a.png"; PStr "scans/missing.png"];
       "mask_path" := [PStr "masks/a.png"; PStr "masks/b.png"] ]}.

(** A table without rows. *)
Definition no_scans : DataFrame :=
  mkDataFrame [] {[ "complete_path" := []; "mask_path" := [] ]}.

(** A table without the image-path column. *)
Definition masks_only : DataFrame :=
  mkDataFrame [PInt 0] {[ "mask_path" := [PStr "masks/a.png"] ]}.

(** A table as loaded from disk, its index labels in the raw form. *)
Definition raw : DataFrame :=
  mkDataFrame [PStr "img_0001.png'"; PStr "img_0002.png'"]
    {[ "gt_imt_max" := [PFloat (8 # 5); PFloat (7 # 10)] ]}.

(** A table whose measurement column holds an array of two elements. *)
Definition scans_arrays : DataFrame :=
  mkDataFrame [PInt 0; PInt 1]
    {[ "gt_imt_max" := [PFloat (8 # 5); PArr (Arr [Num (8 # 5); Num (7 # 10)])] ]}.

(** A table with a missing measurement. *)
Definition scans_missing : DataFrame :=
  mkDataFrame [PInt 0; PInt 1]
    {[ "gt_imt_max" := [PFloat (8 # 5); PNone] ]}.

Definition world_broken : world := mkWorld {[ 1%positive := scans_broken ]} [].
Definition world_empty : world := mkWorld {[ 1%positive := no_scans ]} [].
Definition world_masks : world := mkWorld {[ 1%positive := masks_only ]} [].

End Example2.

(* ===================================================================== *)
(** * Theorems: experiment id *)
(* ===================================================================== *)

Module PyStrFacts.
Import PyStr.

Lemma strip_prefix_app p rest : strip_prefix p (p +:+ rest) = Some rest.
Proof.
  induction p as [|a p IH]; simpl; [done|].
  by rewrite Ascii.eqb_refl.
Qed.

Lemma strip_prefix_Some p s rest : strip_prefix p s = Some rest -> s = p +:+ rest.
Proof.
  revert s; induction p as [|a p IH]; intros s; simpl.
  - by intros [= ->].
  - destruct s as [|b s]; [done|].
    destruct (Ascii.eqb a b) eqn:E; [|done].
    apply Ascii.eqb_eq in E as ->. intros H. change (String b s = String b (p +:+ rest)). f_equal. by apply IH.
Qed.

Lemma prefix_strip p s : String.prefix p s = true <-> is_Some (strip_prefix p s).
Proof.
  revert s; induction p as [|a p IH]; intros s.
  - destruct s; split; intros; done || by eexists.
  - destruct s as [|b s]; cbn [String.prefix strip_prefix].
    + split; [done|]. by intros [? ?].
    + destruct (ascii_dec a b) as [->|Hne].
      * rewrite Ascii.eqb_refl. apply IH.
      * apply Ascii.eqb_neq in Hne. rewrite Hne. split; [done|]. by intros [? ?].
Qed.

Lemma prefix_false_strip p s : String.prefix p s = false -> strip_prefix p s = None.
Proof.
  intros H. destruct (strip_prefix p s) eqn:E; [|done].
  assert (String.prefix p s = true) by (apply prefix_strip; eauto). congruence.
Qed.

(** Skipping the rest of a matched occurrence. *)
Lemma replace_from_skip old new t s :
  replace_from old new (String.length t) (t +:+ s) = replace_from old new 0 s.
Proof. induction t as [|c t IH]; simpl; [done|]. destruct s; done || apply IH. Qed.

(** A string without occurrence of [old] is left as it is. *)
Lemma replace_no_occurrence old new s :
  occurs old s = false -> replace_from old new 0 s = s.
Proof.
  induction s as [|c s IH]; [done|].
  cbn [occurs replace_from]. intros H.
  apply orb_false_iff in H as [Hp Ho].
  rewrite Hp. f_equal. by apply IH.
Qed.

(** Removing every occurrence is stripping the prefix, for a string that
    has no occurrence behind its prefix. *)
Lemma replace_remove_prefix old s :
  old <> "" ->
  occurs old (remove_prefix old s) = false ->
  replace old "" s = remove_prefix old s.
Proof.
  intros Hold. unfold remove_prefix, replace.
  destruct (strip_prefix old s) as [rest|] eqn:E.
  - intros Hocc. apply strip_prefix_Some in E as ->.
    destruct old as [|c old]; [done|].
    change (String c old +:+ rest) with (String c (old +:+ rest)).
    cbn [replace_from].
    change (String c (old +:+ rest)) with (String c old +:+ rest).
    assert (String.prefix (String c old) (String c old +:+ rest) = true) as ->.
    { apply prefix_strip. rewrite strip_prefix_app. eauto. }
    replace (String.length (String c old) - 1)%nat with (String.length old)
      by (cbn [String.length]; lia).
    rewrite replace_from_skip.
    simpl. by apply replace_no_occurrence.
  - apply replace_no_occurrence.
Qed.

End PyStrFacts.

Module ExperimentIdFacts.
Import ExperimentId.

Lemma output_id_strip (names : list string) :
  forallb imt_only_prefix names = true ->
  map (PyStr.replace "imt_" "") names = map (PyStr.remove_prefix "imt_") names.
Proof.
  induction names as [|n names IH]; [done|].
  cbn [forallb map]. intros H. apply andb_true_iff in H as [Hn Hrest].
  f_equal; [|by apply IH].
  apply PyStrFacts.replace_remove_prefix; [done|].
  unfold imt_only_prefix in Hn. by apply negb_true_iff in Hn.
Qed.

(** C2 as stated fails: a name with ["imt_"] behind its first character
    loses it, although it has no such prefix. *)
Lemma experiment_id_not_prefix_strip :
  let tc := [("left_imt_max", Target true "mse" 1%Q)] in
  experiment_id "exp" "CCA" "img" (512, 512) tc = "exp_CCA_img_512_left_max" /\
  spec_experiment_id "exp" "CCA" "img" (512, 512) tc = "exp_CCA_img_512_left_imt_max" /\
  experiment_id "exp" "CCA" "img" (512, 512) tc
    <> spec_experiment_id "exp" "CCA" "img" (512, 512) tc.
Proof. vm_compute. repeat split; discriminate. Qed.

(** C2 (amended): for target names in which ["imt_"] occurs at most once,
    as the prefix, the experiment id is prefix, database, input type and
    the first component of the input shape joined by underscores, followed
    by the enabled names in declaration order, each with its ["imt_"]
    prefix stripped, joined by underscores; the example of the
    specification gives [exp_CCA_img_512_max_plaque]. *)
Theorem experiment_id_format (prefix database input_type : string)
    (input_shape : Z * Z) (tc : target_columns) :
  forallb imt_only_prefix (enabled_names tc) = true ->
  experiment_id prefix database input_type input_shape tc
    = spec_experiment_id prefix database input_type input_shape tc
  /\ experiment_id "exp" "CCA" "img" (512, 512) example_targets
    = "exp_CCA_img_512_max_plaque".
Proof.
  intros H. split; [|reflexivity].
  unfold experiment_id, spec_experiment_id, output_id.
  rewrite (output_id_strip _ H). reflexivity.
Qed.

Lemma experiment_id_format_witness :
  let tc := [("imt_max", Target true "mse" 1%Q);
             ("imt_avg", Target false "mse" 1%Q);
             ("plaque", Target true "weighted_bce" (1 # 2)%Q)] in
  forallb imt_only_prefix (enabled_names tc) = true /\
  (experiment_id "run" "BULB" "mask" (256, 256) tc
     = spec_experiment_id "run" "BULB" "mask" (256, 256) tc
   /\ experiment_id "exp" "CCA" "img" (512, 512) example_targets
     = "exp_CCA_img_512_max_plaque").
Proof. split; [reflexivity | apply experiment_id_format; reflexivity]. Defined.

End ExperimentIdFacts.

(* ===================================================================== *)
(** * Theorems: weighted binary cross-entropy *)
(* ===================================================================== *)

Module LossFacts.
Section WeightedBceFacts.
Import Loss.
Local Open Scope R_scope.

Variable bce_elem : R -> R -> R.

Lemma weight_of_label (t : R) :
  t = 0 \/ t = 1 -> t * 10 + 1 = spec_class_weight t.
Proof.
  unfold spec_class_weight. intros [-> | ->]; destruct (Req_dec_T _ 1); lra.
Qed.

Lemma weighted_terms_length (y_true y_pred : tensor) :
  length y_true = length y_pred ->
  length (weighted_terms bce_elem y_true y_pred) = length y_true.
Proof.
  intros H. unfold weighted_terms, binary_crossentropy, weights.
  rewrite !length_zip_with, length_map. lia.
Qed.

Lemma weighted_terms_class (y_true y_pred : tensor) :
  Forall (fun t => t = 0 \/ t = 1) y_true ->
  weighted_terms bce_elem y_true y_pred
    = zip_with (fun t p => spec_class_weight t * bce_elem t p) y_true y_pred.
Proof.
  unfold weighted_terms, binary_crossentropy, weights.
  intros H. revert y_pred.
  induction H as [|t y_true Ht _ IH]; intros [|p y_pred]; try reflexivity.
  cbn [zip_with map]. rewrite IH, (weight_of_label t Ht). f_equal. lra.
Qed.

(** C1: on equal-shaped tensors with labels in {0,1}, [weighted_bce] is
    the mean over all elements of the element's binary cross-entropy
    scaled by [10 * label + 1]; an element of label 1 contributes exactly
    11 times its cross-entropy term, an element of label 0 exactly once
    that term. *)
Theorem weighted_bce_spec (y_true y_pred : tensor) :
  length y_true = length y_pred ->
  Forall (fun t => t = 0 \/ t = 1) y_true ->
  weighted_bce bce_elem y_true y_pred
    = sum (zip_with (fun t p => (10 * t + 1) * bce_elem t p) y_true y_pred)
      / INR (length y_true)
  /\ weighted_bce bce_elem y_true y_pred = spec_weighted_bce bce_elem y_true y_pred
  /\ forall i t p,
       y_true !! i = Some t -> y_pred !! i = Some p ->
       exists term,
         weighted_terms bce_elem y_true y_pred !! i = Some term
         /\ (t = 1 -> term = 11 * bce_elem 1 p)
         /\ (t = 0 -> term = 1 * bce_elem 0 p).
Proof.
  intros Hlen Hlab.
  assert (weighted_bce bce_elem y_true y_pred
          = spec_weighted_bce bce_elem y_true y_pred) as Hspec.
  { unfold weighted_bce, spec_weighted_bce, mean.
    fold (weighted_terms bce_elem y_true y_pred).
    by rewrite weighted_terms_length, weighted_terms_class. }
  split; [|split; [exact Hspec|]].
  - rewrite Hspec. unfold spec_weighted_bce. do 2 f_equal.
    clear Hlen Hspec. revert y_pred.
    induction Hlab as [|t y_true Ht _ IH]; intros [|p y_pred]; try reflexivity.
    cbn [zip_with]. rewrite IH, <- (weight_of_label t Ht). f_equal. lra.
  - intros i t p Ht Hp.
    rewrite weighted_terms_class by done.
    exists (spec_class_weight t * bce_elem t p). split.
    + apply lookup_zip_with_Some. by exists t, p.
    + unfold spec_class_weight.
      split; intros ->; destruct (Req_dec_T _ 1); try lra; reflexivity.
Qed.

End WeightedBceFacts.

Lemma weighted_bce_spec_witness :
  let y_true := [1; 0; 1]%R in
  let y_pred := [1 / 2; 1 / 4; 3 / 4]%R in
  length y_true = length y_pred /\
  Forall (fun t => t = 0 \/ t = 1)%R y_true /\
  Loss.weighted_bce Loss.plain_bce y_true y_pred
    = Loss.spec_weighted_bce Loss.plain_bce y_true y_pred.
Proof.
  assert (Forall (fun t => t = 0 \/ t = 1)%R [1; 0; 1]%R) as Hlab
    by (repeat first [apply Forall_nil_2 | apply Forall_cons_2]; auto).
  split; [reflexivity|]. split; [exact Hlab|].
  exact (proj1 (proj2 (weighted_bce_spec Loss.plain_bce [1; 0; 1]%R
                        [1 / 2; 1 / 4; 3 / 4]%R eq_refl Hlab))).
Defined.

End LossFacts.

(* ===================================================================== *)
(** * Facts about the monad *)
(* ===================================================================== *)

Module MFacts.

Lemma bind_run {A B} (c : M A) (f : A -> M B) (w : world) :
  (c ≫= f) w = match c w with
               | (inl e, w') => (inl e, w')
               | (inr x, w') => f x w'
               end.
Proof. reflexivity. Qed.

Lemma after_nil (w : world) : after w [] = w.
Proof. destruct w. unfold after. cbn. by rewrite app_nil_r. Qed.

Lemma after_after (w : world) (evs1 evs2 : list event) :
  after (after w evs1) evs2 = after w (evs1 ++ evs2).
Proof. unfold after. cbn. by rewrite app_assoc. Qed.

Lemma heap_after (w : world) (evs : list event) : heap (after w evs) = heap w.
Proof. reflexivity. Qed.

Lemma log_only_ret {A} (x : A) : log_only (mret x).
Proof. intros w. unfold result_of, events_of. cbn. by rewrite after_nil. Qed.

Lemma log_only_raise {A} (e : exn) : log_only (@raise A e).
Proof. intros w. unfold result_of, events_of. cbn. by rewrite after_nil. Qed.

Lemma log_only_lift {A} (r : exn + A) : log_only (lift r).
Proof. intros w. unfold result_of, events_of. cbn. by rewrite after_nil. Qed.

Lemma log_only_emit (ev : event) : log_only (emit ev).
Proof. intros w. reflexivity. Qed.

Lemma log_only_bind {A B} (c : M A) (f : A -> M B) :
  log_only c -> (forall x, log_only (f x)) -> log_only (c ≫= f).
Proof.
  intros Hc Hf w. unfold result_of, events_of.
  rewrite !bind_run, (Hc w), (Hc empty_world).
  destruct (result_of c) as [e|x]; [reflexivity|].
  rewrite (Hf x (after w _)), (Hf x (after empty_world _)).
  by rewrite after_after.
Qed.

Lemma log_only_for_each {S X} (xs : list X) (body : S -> X -> M S) (s : S) :
  (forall s x, log_only (body s x)) -> log_only (for_each xs body s).
Proof.
  intros Hbody. revert s. induction xs as [|x xs IH]; intros s.
  - apply log_only_ret.
  - cbn [for_each]. apply log_only_bind; auto.
Qed.

End MFacts.

(* ===================================================================== *)
(** * Theorems: single-sample predictor *)
(* ===================================================================== *)

Module PredictorFacts.
Section Facts.

Variable imread : string -> option (list (list byte)).
Variable resize : gray -> Z * Z -> gray.

Import MFacts.
Local Abbreviation load_gray := (load_gray imread resize).
Local Abbreviation input_data_of := (input_data_of imread resize).
Local Abbreviation nn_predict_imt := (nn_predict_imt imread resize).





Lemma input_neither shape w :
  input_data_of PNone PNone shape w = (inl (UnboundLocalError "input_data"), w).
Proof. reflexivity. Qed.

(** [nn_predict_imt] in terms of its two parts. *)
Lemma nn_predict_imt_run ip mp model shape tc w :
  nn_predict_imt ip mp model shape tc w
    = match input_data_of ip mp shape w with
      | (inl e, w1) => (inl e, w1)
      | (inr x, w1) =>
          (match unpack_heads (model (Np.expand_dims0 x)) tc with
           | inl e => inl e
           | inr (result, _) => inr result
           end,
           after w1 [EvPredict (Np.expand_dims0 x)])
      end.
Proof.
  unfold nn_predict_imt. rewrite bind_run.
  destruct (input_data_of ip mp shape w) as [[e|x] w1]; [reflexivity|].
  rewrite !bind_run. cbn.
  by destruct (unpack_heads _ _) as [e|[result count]].
Qed.

Lemma log_only_load_gray path shape : log_only (load_gray path shape).
Proof.
  unfold load_gray. apply log_only_bind; [apply log_only_emit|]. intros _.
  destruct path as [|p| | | | |]; try apply log_only_raise.
  destruct (imread p); [apply log_only_ret | apply log_only_raise].
Qed.

Lemma log_only_input_data_of ip mp shape : log_only (input_data_of ip mp shape).
Proof.
  unfold input_data_of.
  repeat first
    [ apply log_only_ret | apply log_only_raise | apply log_only_lift
    | apply log_only_load_gray
    | apply log_only_bind; [|intros ?]
    | match goal with
      | |- log_only (if ?b then _ else _) => destruct b
      | |- log_only (match ?x with _ => _ end) => destruct x
      end ].
Qed.

Lemma log_only_nn_predict_imt ip mp model shape tc :
  log_only (nn_predict_imt ip mp model shape tc).
Proof.
  unfold nn_predict_imt.
  repeat first
    [ apply log_only_ret | apply log_only_lift | apply log_only_emit
    | apply log_only_input_data_of
    | apply log_only_bind; [|intros ?]
    | match goal with
      | |- log_only (match ?x with _ => _ end) => destruct x
      end ].
Qed.


End Facts.
End PredictorFacts.

Module UnpackFacts.

Lemma enabled_names_cons key v (rest : target_columns) :
  enabled_names ((key, v) :: rest)
    = if predict v then key :: enabled_names rest else enabled_names rest.
Proof.
  unfold enabled_names. destruct (predict v) eqn:E.
  - by rewrite filter_cons_True.
  - rewrite filter_cons_False; [done|]. cbn. by rewrite E.
Qed.

Lemma enabled_names_keys (tc : target_columns) name :
  name ∈ enabled_names tc -> name ∈ map fst tc.
Proof.
  induction tc as [|[key v] rest IH]; [done|].
  rewrite enabled_names_cons. cbn [map fst].
  destruct (predict v); rewrite ?elem_of_cons; intuition auto.
Qed.

Lemma enabled_names_NoDup (tc : target_columns) :
  NoDup (map fst tc) -> NoDup (enabled_names tc).
Proof.
  induction tc as [|[key v] rest IH]; [constructor|].
  cbn [map fst]. rewrite NoDup_cons, enabled_names_cons. intros [Hkey Hrest].
  destruct (predict v); [|auto].
  apply NoDup_cons. split; [|auto].
  intros Hin. by apply Hkey, enabled_names_keys.
Qed.

(** What a successful run of the loop from the state [(res, c)] leaves. *)
Lemma unpack_loop prediction (tc : target_columns) :
  forall res c m c',
    NoDup (map fst tc) ->
    for_each_pure tc (unpack_step prediction) (res, c) = inr (m, c') ->
    c' = (c + length (enabled_names tc))%nat
    /\ (forall k name, enabled_names tc !! k = Some name ->
          exists head, Np.getitem prediction (c + k) = inr head
                       /\ m !! name = Some (Np.squeeze head))
    /\ (forall name, name ∉ enabled_names tc -> m !! name = res !! name).
Proof.
  induction tc as [|[key v] rest IH]; intros res c m c' Hnd Hrun.
  - cbn in Hrun. injection Hrun as <- <-. cbn.
    split; [lia|]. split; [intros k name Hk; by destruct k|done].
  - cbn [map fst] in Hnd. apply NoDup_cons in Hnd as [Hkey Hnd].
    rewrite enabled_names_cons. cbn [for_each_pure unpack_step] in Hrun.
    destruct (predict v).
    + destruct (Np.getitem prediction c) as [e|head] eqn:Hhead; [done|].
      cbn in Hrun.
      destruct (IH _ _ _ _ Hnd Hrun) as (Hc' & Hin & Hout).
      assert (key ∉ enabled_names rest) as Hfresh
        by (intros Hin'; by apply Hkey, enabled_names_keys).
      split; [cbn; lia|]. split.
      * intros [|k] name Hk; cbn in Hk.
        -- injection Hk as <-. exists head. rewrite Nat.add_0_r.
           split; [done|]. by rewrite (Hout _ Hfresh), lookup_insert_eq.
        -- destruct (Hin _ _ Hk) as (h & Hh & Hm). exists h.
           by rewrite <- Nat.add_succ_comm.
      * intros name Hname. apply not_elem_of_cons in Hname as [Hne Hname].
        by rewrite (Hout _ Hname), lookup_insert_ne.
    + cbn in Hrun. by apply IH.
Qed.

(** The loop succeeds when the prediction has enough heads. *)
Lemma unpack_loop_total heads (tc : target_columns) :
  forall res c,
    (c + length (enabled_names tc) <= length heads)%nat ->
    exists m c', for_each_pure tc (unpack_step (Arr heads)) (res, c) = inr (m, c').
Proof.
  induction tc as [|[key v] rest IH]; intros res c Hlen.
  - by eexists _, _.
  - rewrite enabled_names_cons in Hlen. cbn [for_each_pure unpack_step].
    destruct (predict v).
    + cbn in Hlen. destruct (lookup_lt_is_Some_2 heads c) as [h Hh]; [lia|].
      cbn. rewrite Hh. cbn. apply IH. lia.
    + cbn. by apply IH.
Qed.

Section Result.
Import PredictorFacts.

Variable imread : string -> option (list (list byte)).
Variable resize : gray -> Z * Z -> gray.

(** What a successful call of [nn_predict_imt] did. *)
Lemma nn_predict_imt_inv (model : Model) (input_shape : Z * Z)
    (tc : target_columns) (img_path mask_path : pyval) (w w' : world)
    (result : gmap string ndarray) :
  NoDup (map fst tc) ->
  nn_predict_imt imread resize img_path mask_path model input_shape tc w
    = (inr result, w') ->
  exists x w1,
    input_data_of imread resize img_path mask_path input_shape w = (inr x, w1)
    /\ w' = after w1 [EvPredict (Arr [x])]
    /\ (forall k name,
          enabled_names tc !! k = Some name ->
          exists head,
            Np.getitem (model (Arr [x])) k = inr head
            /\ result !! name = Some (Np.squeeze head))
    /\ (forall name, name ∉ enabled_names tc -> result !! name = None).
Proof.
  intros Hnd. rewrite nn_predict_imt_run.
  destruct (input_data_of imread resize img_path mask_path input_shape w)
    as [[e|x] w1]; [done|].
  unfold unpack_heads, Np.expand_dims0.
  destruct (for_each_pure tc _ _) as [e|[m c']] eqn:Hrun; [done|].
  intros [= -> <-]. exists x, w1.
  destruct (unpack_loop _ _ _ _ _ _ Hnd Hrun) as (_ & Hin & Hout).
  split; [done|]. split; [done|]. split; [exact Hin|].
  intros name Hname. by rewrite (Hout _ Hname).
Qed.

(** The keys of a returned mapping are the enabled names. *)
Lemma nn_predict_imt_keys (model : Model) (input_shape : Z * Z)
    (tc : target_columns) (img_path mask_path : pyval) (w w' : world)
    (result : gmap string ndarray) (name : string) :
  NoDup (map fst tc) ->
  nn_predict_imt imread resize img_path mask_path model input_shape tc w
    = (inr result, w') ->
  is_Some (result !! name) <-> name ∈ enabled_names tc.
Proof.
  intros Hnd Hrun.
  destruct (nn_predict_imt_inv _ _ _ _ _ _ _ _ Hnd Hrun)
    as (x & w1 & _ & _ & Hin & Hnone).
  split.
  - intros [v Hv]. destruct (decide (name ∈ enabled_names tc)); [done|].
    rewrite Hnone in Hv; done.
  - intros Hname. apply list_elem_of_lookup in Hname as [k Hk].
    destruct (Hin _ _ Hk) as (head & _ & ->). eauto.
Qed.

(** A disabled name of a dict is no enabled name. *)
Lemma disabled_not_enabled (tc : target_columns) name t :
  NoDup (map fst tc) -> (name, t) ∈ tc -> predict t = false ->
  name ∉ enabled_names tc.
Proof.
  intros Hnd Ht Hpred.
  induction tc as [|[key v] rest IH]; [by apply elem_of_nil in Ht|].
  cbn [map fst] in Hnd. apply NoDup_cons in Hnd as [Hkey Hnd].
  rewrite enabled_names_cons.
  apply elem_of_cons in Ht as [[= <- <-]|Ht].
  - rewrite Hpred. intros Hin. by apply Hkey, enabled_names_keys.
  - assert (name <> key) as Hne.
    { intros ->. apply Hkey. apply list_elem_of_fmap. by exists (key, t). }
    destruct (predict v); [|by apply IH].
    apply not_elem_of_cons. split; [done|by apply IH].
Qed.

End Result.
End UnpackFacts.

Module PredictorTheorems.
Section Theorems.
Import MFacts PredictorFacts UnpackFacts.

Variable imread : string -> option (list (list byte)).
Variable resize : gray -> Z * Z -> gray.

Local Abbreviation input_data_of := (input_data_of imread resize).
Local Abbreviation nn_predict_imt := (nn_predict_imt imread resize).





(** C7: a path given as the image path alone and the same path given as
    the mask path alone lead to the same model input, hence to the same
    run of the model and the same prediction mapping. *)
Theorem nn_predict_imt_modality_independent (model : Model)
    (input_shape : Z * Z) (tc : target_columns) (w : world) (p : string) :
  input_data_of (PStr p) PNone input_shape w
    = input_data_of PNone (PStr p) input_shape w
  /\ nn_predict_imt (PStr p) PNone model input_shape tc w
    = nn_predict_imt PNone (PStr p) model input_shape tc w.
Proof.
  assert (input_data_of (PStr p) PNone input_shape w
          = input_data_of PNone (PStr p) input_shape w) as H.
  { unfold input_data_of, load_gray. cbn [is_not_none andb].
    rewrite !bind_run. cbn. rewrite !bind_run. cbn.
    by destruct (imread p). }
  split; [exact H|]. by rewrite !nn_predict_imt_run, H.
Qed.

(** C4: the mapping returned by [nn_predict_imt] has as keys exactly the
    target names marked [predict: true]; the value of the [k]-th such
    name, in declaration order, is the squeezed [k]-th head of the model
    output; names with [predict: false] are absent.  The mapping is
    returned whenever the model output has a head for every enabled
    name. *)
Theorem nn_predict_imt_result (model : Model) (input_shape : Z * Z)
    (tc : target_columns) (img_path mask_path : pyval) (w : world) :
  NoDup (map fst tc) ->
  (forall result w',
     nn_predict_imt img_path mask_path model input_shape tc w = (inr result, w') ->
     exists x w1,
       input_data_of img_path mask_path input_shape w = (inr x, w1)
       /\ w' = after w1 [EvPredict (Arr [x])]
       /\ dom result = list_to_set (enabled_names tc)
       /\ (forall k name,
             enabled_names tc !! k = Some name ->
             exists head,
               Np.getitem (model (Arr [x])) k = inr head
               /\ result !! name = Some (Np.squeeze head))
       /\ (forall name t,
             (name, t) ∈ tc -> predict t = false -> result !! name = None))
  /\ (forall x w1 heads,
        input_data_of img_path mask_path input_shape w = (inr x, w1) ->
        model (Arr [x]) = Arr heads ->
        (length (enabled_names tc) <= length heads)%nat ->
        exists result,
          nn_predict_imt img_path mask_path model input_shape tc w
            = (inr result, after w1 [EvPredict (Arr [x])])).
Proof.
  intros Hnd. split.
  - intros result w' Hrun.
    destruct (nn_predict_imt_inv _ _ _ _ _ _ _ _ _ _ Hnd Hrun)
      as (x & w1 & Hx & Hw' & Hin & Hnone).
    exists x, w1. split; [done|]. split; [done|].
    split; [|split; [exact Hin|]].
    + apply set_eq. intros name.
      rewrite elem_of_dom, elem_of_list_to_set.
      by eapply nn_predict_imt_keys.
    + intros name t Ht Hpred. by eapply Hnone, disabled_not_enabled.
  - intros x w1 heads Hin Hmodel Hlen. rewrite nn_predict_imt_run, Hin.
    unfold unpack_heads, Np.expand_dims0. rewrite Hmodel.
    destruct (unpack_loop_total heads tc ∅ 0%nat Hlen) as (m & c' & ->).
    by exists m.
Qed.

End Theorems.


Lemma nn_predict_imt_result_witness :
  NoDup (map fst Example.targets)
  /\ exists result w',
       nn_predict_imt Example.imread Example.resize (PStr "scans/a.png")
         (PStr "masks/a.png") Example.model (2, 2) Example.targets empty_world
         = (inr result, w')
       /\ dom result = list_to_set (enabled_names Example.targets).
Proof.
  assert (NoDup (map fst Example.targets)) as Hnd
    by (apply (bool_decide_unpack _); vm_compute; exact I).
  split; [exact Hnd|].
  destruct (nn_predict_imt Example.imread Example.resize (PStr "scans/a.png")
              (PStr "masks/a.png") Example.model (2, 2) Example.targets
              empty_world) as [[e|result] w'] eqn:Hrun; [by vm_compute in Hrun|].
  exists result, w'. split; [reflexivity|].
  destruct (proj1 (nn_predict_imt_result Example.imread Example.resize
                     Example.model (2, 2) Example.targets _ _ _ Hnd)
                  result w' Hrun) as (x & w1 & _ & _ & Hdom & _).
  exact Hdom.
Defined.

End PredictorTheorems.

(* ===================================================================== *)
(** * Theorems: full-dataframe predictor *)
(* ===================================================================== *)

Module DataFrameFacts.

Lemma append_inj_l (p a b : string) : p +:+ a = p +:+ b -> a = b.
Proof. induction p as [|c p IH]; [done|]. intros [= H]. by apply IH. Qed.

Lemma predicted_name_inj (a b : string) : predicted_name a = predicted_name b -> a = b.
Proof. apply append_inj_l. Qed.

Lemma predicted_name_not_nn (key : string) : predicted_name key <> "nn_prediction".
Proof. done. Qed.

Lemma with_predicted_cons preds k names (cols : gmap string (list pyval)) :
  with_predicted preds (k :: names) cols
    = with_predicted preds names (<[predicted_name k := predicted_col k preds]> cols).
Proof. reflexivity. Qed.

Lemma with_predicted_other preds names (cols : gmap string (list pyval)) c :
  c ∉ map predicted_name names ->
  with_predicted preds names cols !! c = cols !! c.
Proof.
  revert cols. induction names as [|k names IH]; intros cols Hc; [done|].
  cbn [map] in Hc. apply not_elem_of_cons in Hc as [Hne Hc].
  rewrite with_predicted_cons, IH by done. by rewrite lookup_insert_ne.
Qed.

Lemma with_predicted_lookup preds names (cols : gmap string (list pyval)) name :
  name ∈ names ->
  with_predicted preds names cols !! predicted_name name
    = Some (predicted_col name preds).
Proof.
  revert cols. induction names as [|k names IH]; intros cols Hin.
  - by apply elem_of_nil in Hin.
  - rewrite with_predicted_cons.
    destruct (decide (name ∈ names)) as [Hn|Hn]; [by apply IH|].
    apply elem_of_cons in Hin as [->|Hin]; [|done].
    rewrite with_predicted_other; [by rewrite lookup_insert_eq|].
    intros Hk. apply list_elem_of_fmap in Hk as (k' & Heq & Hk').
    apply predicted_name_inj in Heq as ->. done.
Qed.

Lemma with_predicted_dom preds names (cols : gmap string (list pyval)) :
  dom (with_predicted preds names cols)
    = dom cols ∪ list_to_set (map predicted_name names).
Proof.
  revert cols. induction names as [|k names IH]; intros cols.
  - cbn. set_solver.
  - rewrite with_predicted_cons, IH, dom_insert_L. cbn [map]. set_solver.
Qed.

Lemma predicted_col_length key preds : length (predicted_col key preds) = length preds.
Proof. apply length_map. Qed.

Lemma apply_cell_getitem key (preds : list (gmap string ndarray)) :
  Forall (fun p => is_Some (p !! key)) preds ->
  Pd.apply (cell_getitem key) (map PDict preds) = inr (predicted_col key preds).
Proof.
  induction 1 as [|p preds [v Hv] _ IH]; [done|].
  cbn. rewrite Hv. cbn. by rewrite IH.
Qed.

Lemma world_insert_id (w : world) (l : loc) (df : DataFrame) :
  heap w !! l = Some df -> mkWorld (<[l := df]> (heap w)) (log w) = w.
Proof. intros H. destruct w. cbn in *. by rewrite insert_id. Qed.

(** The second loop sets the column [predicted_<name>] of every enabled
    name. *)
Lemma columns_loop (l : loc) (preds : list (gmap string ndarray))
    (idx : list pyval) (tc : target_columns) :
  forall (cols : gmap string (list pyval)) (w : world),
    heap w !! l = Some (mkDataFrame idx cols) ->
    cols !! "nn_prediction" = Some (map PDict preds) ->
    length preds = length idx ->
    (forall key, key ∈ enabled_names tc ->
                 Forall (fun p => is_Some (p !! key)) preds) ->
    for_each tc (set_predicted_column l) tt w
      = (inr tt,
         mkWorld (<[l := mkDataFrame idx
                           (with_predicted preds (enabled_names tc) cols)]> (heap w))
                 (log w)).
Proof.
  induction tc as [|[key v] rest IH]; intros cols w Hl Hnn Hlen Hkeys.
  - cbn. by rewrite world_insert_id.
  - rewrite UnpackFacts.enabled_names_cons in *. cbn [for_each].
    rewrite MFacts.bind_run. unfold set_predicted_column at 1.
    destruct (predict v).
    + unfold setitem_at, deref, Pd.getitem, Pd.setitem, Pd.nrows, assign, lift.
      unfold mbind, M_bind. rewrite Hl. cbn. rewrite Hnn.
      rewrite apply_cell_getitem by (apply Hkeys; left).
      rewrite Hl. cbn.
      rewrite predicted_col_length, decide_True by done.
      rewrite (IH (<[predicted_name key := predicted_col key preds]> cols)).
      * cbn. by rewrite insert_insert_eq.
      * cbn. by rewrite lookup_insert_eq.
      * by rewrite lookup_insert_ne.
      * done.
      * intros k Hk. apply Hkeys. by right.
    + cbn. by apply IH.
Qed.

(** A list of results that are all mappings, against the list of those
    mappings. *)
Lemma Forall2_results {A} (g : nat -> exn + A) (d : A) (rows : list nat) :
  Forall (fun r => exists p, g r = inr p) rows ->
  Forall2 (fun r p => g r = inr p) rows
    (map (fun r => match g r with inr p => p | inl _ => d end) rows).
Proof.
  induction 1 as [|r rows [p Hp] _ IH]; [constructor|].
  cbn [map]. constructor; [by rewrite Hp|exact IH].
Qed.

Section Rows.
Import MFacts PredictorFacts UnpackFacts.

Variable imread : string -> option (list (list byte)).
Variable resize : gray -> Z * Z -> gray.
Variables (model : Model) (input_column : string) (tc : target_columns).
Variable input_shape : Z * Z.

Local Abbreviation row_prediction :=
  (row_prediction imread resize model input_column tc input_shape).
Local Abbreviation row_events :=
  (row_events imread resize model input_column tc input_shape).
Local Abbreviation predict_row :=
  (predict_row imread resize model input_column tc input_shape).

Lemma predict_row_run (df : DataFrame) (r : nat) (p : gmap string ndarray)
    (acc : list pyval) (w : world) :
  row_prediction df r = inr p ->
  predict_row df acc r w
    = (inr (acc ++ [PDict p])%list, after w (row_events df r)).
Proof.
  unfold row_prediction, row_events, predict_row.
  destruct (row_img_path input_column df r) as [e|img_path]; [done|].
  destruct (row_mask_path input_column df r) as [e|mask_path]; [done|].
  cbn. intros Hp. unfold lift, mbind, M_bind.
  rewrite (log_only_nn_predict_imt imread resize img_path mask_path model
             input_shape tc w), Hp.
  reflexivity.
Qed.

(** The first loop calls the predictor for each row in turn and collects
    the mappings. *)
Lemma rows_loop (df : DataFrame) (rows : list nat)
    (preds : list (gmap string ndarray)) :
  Forall2 (fun r p => row_prediction df r = inr p) rows preds ->
  forall acc w,
    for_each rows (predict_row df) acc w
      = (inr (acc ++ map PDict preds)%list,
         after w (concat (map (row_events df) rows))).
Proof.
  induction 1 as [|r p rows preds Hr _ IH]; intros acc w.
  - cbn. by rewrite app_nil_r, after_nil.
  - cbn [for_each map concat].
    rewrite bind_run, (predict_row_run _ _ _ _ _ Hr), IH, after_after.
    by rewrite <- app_assoc.
Qed.

(** Every mapping collected by the first loop has a component for every
    enabled name. *)
Lemma row_prediction_keys (df : DataFrame) (r : nat)
    (p : gmap string ndarray) (key : string) :
  NoDup (map fst tc) ->
  row_prediction df r = inr p ->
  key ∈ enabled_names tc -> is_Some (p !! key).
Proof.
  unfold row_prediction. intros Hnd Hp Hkey.
  destruct (row_img_path input_column df r) as [e|img_path]; [done|].
  destruct (row_mask_path input_column df r) as [e|mask_path]; [done|].
  cbn in Hp. unfold result_of in Hp.
  destruct (nn_predict_imt imread resize img_path mask_path model input_shape
              tc empty_world) as [res w'] eqn:Hrun.
  cbn in Hp. subst res.
  by apply (nn_predict_imt_keys _ _ _ _ _ _ _ _ _ _ _ Hnd Hrun).
Qed.

(** The whole run, when the predictor succeeds on every row. *)
Lemma predict_complete_dataframe_run (l : loc) (w : world) (df : DataFrame)
    (preds : list (gmap string ndarray)) :
  NoDup (map fst tc) ->
  heap w !! l = Some df ->
  Forall2 (fun r p => row_prediction df r = inr p) (seq 0 (Pd.nrows df)) preds ->
  predict_complete_dataframe imread resize model l input_column tc input_shape w
    = (inr l,
       mkWorld
         (<[l := mkDataFrame (df_index df)
                   (with_predicted preds (enabled_names tc)
                      (<["nn_prediction" := map PDict preds]> (df_columns df)))]>
            (heap w))
         (log w
          ++ EvPrint "Predicting values from the complete dataframe, this could take a while" None
             :: concat (map (row_events df) (seq 0 (Pd.nrows df))))).
Proof.
  intros Hnd Hl Hrows.
  assert (length preds = length (df_index df)) as Hlen.
  { apply Forall2_length in Hrows. by rewrite length_seq in Hrows. }
  unfold predict_complete_dataframe, setitem_at.
  unfold mbind, M_bind, emit, deref, assign, lift, Pd.setitem, Pd.nrows.
  cbn [heap log]. rewrite Hl, (rows_loop _ _ _ Hrows).
  cbn [heap log after app]. rewrite Hl.
  rewrite length_map, decide_True by done.
  erewrite columns_loop; cycle 1.
  - cbn [heap]. apply lookup_insert_eq.
  - apply lookup_insert_eq.
  - done.
  - intros key Hkey. apply Forall_forall. intros p Hp.
    apply list_elem_of_lookup in Hp as [i Hi].
    destruct (Forall2_lookup_r _ _ _ _ _ Hrows Hi) as (r & _ & Hr).
    by eapply row_prediction_keys.
  - unfold mret, M_ret, after. cbn [heap log].
    by rewrite insert_insert_eq, <- app_assoc.
Qed.

End Rows.
End DataFrameFacts.

Module DataFrameTheorems.
Section Theorems.
Import DataFrameFacts.

Variable imread : string -> option (list (list byte)).
Variable resize : gray -> Z * Z -> gray.
Variables (model : Model) (input_column : string) (tc : target_columns).
Variable input_shape : Z * Z.

Local Abbreviation row_prediction :=
  (row_prediction imread resize model input_column tc input_shape).
Local Abbreviation row_events :=
  (row_events imread resize model input_column tc input_shape).
Local Abbreviation predict_complete_dataframe :=
  (fun l => predict_complete_dataframe imread resize model l input_column tc
              input_shape).

(** C8: [predict_complete_dataframe] calls the single-sample predictor
    once per row, in row order, and the returned table has one
    [predicted_<name>] column for each target marked [predict: true] (as
    many distinct columns as enabled targets); row [r] of
    [predicted_<name>] holds the component keyed [name] of the prediction
    mapping of row [r]. *)
Theorem predict_complete_dataframe_columns (l : loc) (w : world)
    (df : DataFrame) (preds : list (gmap string ndarray)) :
  NoDup (map fst tc) ->
  heap w !! l = Some df ->
  Forall2 (fun r p => row_prediction df r = inr p) (seq 0 (Pd.nrows df)) preds ->
  exists w' df',
    predict_complete_dataframe l w = (inr l, w')
    /\ heap w' !! l = Some df'
    /\ log w'
       = (log w
          ++ EvPrint "Predicting values from the complete dataframe, this could take a while" None
             :: concat (map (row_events df) (seq 0 (Pd.nrows df))))%list
    /\ dom (df_columns df')
       = dom (df_columns df) ∪ {["nn_prediction"]}
         ∪ list_to_set (map predicted_name (enabled_names tc))
    /\ NoDup (map predicted_name (enabled_names tc))
    /\ length (map predicted_name (enabled_names tc)) = length (enabled_names tc)
    /\ forall name,
         name ∈ enabled_names tc ->
         exists col,
           df_columns df' !! predicted_name name = Some col
           /\ length col = Pd.nrows df
           /\ forall r p,
                preds !! r = Some p ->
                exists v, p !! name = Some v /\ col !! r = Some (PArr v).
Proof.
  intros Hnd Hl Hrows.
  assert (length preds = Pd.nrows df) as Hlen.
  { apply Forall2_length in Hrows. by rewrite length_seq in Hrows. }
  eexists _, _. split; [by apply predict_complete_dataframe_run|].
  cbn [heap log]. split; [apply lookup_insert_eq|]. split; [done|].
  cbn [df_columns].
  split; [rewrite with_predicted_dom, dom_insert_L; set_solver|].
  split.
  { apply NoDup_fmap_2; [intros a b; apply predicted_name_inj|].
    by apply UnpackFacts.enabled_names_NoDup. }
  split; [apply length_map|].
  intros name Hname. exists (predicted_col name preds).
  split; [by apply with_predicted_lookup|].
  split; [by rewrite predicted_col_length|].
  intros r p Hp.
  destruct (Forall2_lookup_r _ _ _ _ _ Hrows Hp) as (r' & _ & Hr).
  destruct (row_prediction_keys _ _ _ _ _ _ _ _ _ _ Hnd Hr Hname) as [v Hv].
  exists v. split; [done|].
  unfold predicted_col. by rewrite list_lookup_fmap, Hp; cbn; rewrite Hv.
Qed.

(** C10 (amended): [predict_complete_dataframe] changes the caller's
    dataframe object in place and returns that same object; it sets the
    column [nn_prediction] to the prediction mappings of the rows and the
    columns [predicted_<name>]; the row index and every column of another
    name are left as they were, and so is every other object. *)
Theorem predict_complete_dataframe_frame (l : loc) (w : world)
    (df : DataFrame) (preds : list (gmap string ndarray)) :
  NoDup (map fst tc) ->
  heap w !! l = Some df ->
  Forall2 (fun r p => row_prediction df r = inr p) (seq 0 (Pd.nrows df)) preds ->
  exists df' evs,
    predict_complete_dataframe l w
      = (inr l, mkWorld (<[l := df']> (heap w)) (log w ++ evs))
    /\ df_index df' = df_index df
    /\ df_columns df' !! "nn_prediction" = Some (map PDict preds)
    /\ (forall c,
          c <> "nn_prediction" ->
          c ∉ map predicted_name (enabled_names tc) ->
          df_columns df' !! c = df_columns df !! c)
    /\ (forall l', l' <> l -> <[l := df']> (heap w) !! l' = heap w !! l').
Proof.
  intros Hnd Hl Hrows.
  eexists _, _. split; [by apply predict_complete_dataframe_run|].
  cbn [df_index df_columns]. split; [done|]. split; [|split].
  - rewrite with_predicted_other; [apply lookup_insert_eq|].
    intros Hin. apply list_elem_of_fmap in Hin as (k & Hk & _).
    by apply eq_sym, predicted_name_not_nn in Hk.
  - intros c Hc Hpred. rewrite with_predicted_other by done.
    by rewrite lookup_insert_ne.
  - intros l' Hl'. by rewrite lookup_insert_ne.
Qed.

End Theorems.

Lemma example_rows (input_column : string) :
  input_column = "img_and_mask" \/ input_column = "mask_path" ->
  Forall2 (fun r p =>
             row_prediction Example.imread Example.resize Example.model
               input_column Example.targets (2, 2) Example.scans r = inr p)
    (seq 0 (Pd.nrows Example.scans))
    (Example.predictions input_column Example.scans).
Proof.
  intros Hcol. apply DataFrameFacts.Forall2_results.
  change (seq 0 (Pd.nrows Example.scans)) with [0; 1]%nat.
  destruct Hcol as [-> | ->];
    repeat (apply Forall_cons_2; [eexists; vm_compute; reflexivity|]);
    apply Forall_nil_2.
Qed.

Lemma example_targets_NoDup : NoDup (map fst Example.targets).
Proof. apply (bool_decide_unpack _). vm_compute. exact I. Qed.

Lemma predict_complete_dataframe_columns_witness :
  NoDup (map fst Example.targets)
  /\ heap Example.world1 !! 1%positive = Some Example.scans
  /\ Forall2 (fun r p =>
                row_prediction Example.imread Example.resize Example.model
                  "img_and_mask" Example.targets (2, 2) Example.scans r = inr p)
       (seq 0 (Pd.nrows Example.scans))
       (Example.predictions "img_and_mask" Example.scans)
  /\ exists w' df',
       predict_complete_dataframe Example.imread Example.resize Example.model
         1%positive "img_and_mask" Example.targets (2, 2) Example.world1
         = (inr 1%positive, w')
       /\ heap w' !! 1%positive = Some df'
       /\ dom (df_columns df')
          = dom (df_columns Example.scans) ∪ {["nn_prediction"]}
            ∪ list_to_set (map predicted_name ["imt_max"; "plaque"]).
Proof.
  split; [exact example_targets_NoDup|]. split; [reflexivity|].
  split; [apply example_rows; by left|].
  destruct (predict_complete_dataframe_columns Example.imread Example.resize
              Example.model "img_and_mask" Example.targets (2, 2) 1%positive
              Example.world1 Example.scans _ example_targets_NoDup eq_refl
              (example_rows _ (or_introl eq_refl)))
    as (w' & df' & Hrun & Hdf & _ & Hdom & _).
  exists w', df'. split; [exact Hrun|]. split; [exact Hdf|]. exact Hdom.
Defined.

Lemma predict_complete_dataframe_frame_witness :
  NoDup (map fst Example.targets)
  /\ heap Example.world1 !! 1%positive = Some Example.scans
  /\ Forall2 (fun r p =>
                row_prediction Example.imread Example.resize Example.model
                  "mask_path" Example.targets (2, 2) Example.scans r = inr p)
       (seq 0 (Pd.nrows Example.scans))
       (Example.predictions "mask_path" Example.scans)
  /\ exists w' df',
       predict_complete_dataframe Example.imread Example.resize Example.model
         1%positive "mask_path" Example.targets (2, 2) Example.world1
         = (inr 1%positive, w')
       /\ heap w' !! 1%positive = Some df'
       /\ df_index df' = df_index Example.scans
       /\ df_columns df' !! "nn_prediction"
          = Some (map PDict (Example.predictions "mask_path" Example.scans)).
Proof.
  split; [exact example_targets_NoDup|]. split; [reflexivity|].
  split; [apply example_rows; by right|].
  destruct (predict_complete_dataframe_frame Example.imread Example.resize
              Example.model "mask_path" Example.targets (2, 2) 1%positive
              Example.world1 Example.scans _ example_targets_NoDup eq_refl
              (example_rows _ (or_intror eq_refl)))
    as (df' & evs & Hrun & Hidx & Hnn & _).
  eexists _, df'. split; [exact Hrun|]. split; [apply lookup_insert_eq|].
  split; [exact Hidx | exact Hnn].
Defined.

(** C10 as stated fails: a column [nn_prediction] that the dataframe has
    already is replaced. *)
Lemma predict_complete_dataframe_overwrites :
  exists w' df',
    predict_complete_dataframe Example.imread Example.resize Example.model
      1%positive "img_and_mask" Example.targets (2, 2) Example.world2
      = (inr 1%positive, w')
    /\ heap Example.world2 !! 1%positive = Some Example.scans_predicted
    /\ heap w' !! 1%positive = Some df'
    /\ df_columns Example.scans_predicted !! "nn_prediction"
       = Some [PStr "stale"; PStr "stale"]
    /\ df_columns df' !! "nn_prediction" <> Some [PStr "stale"; PStr "stale"]
    /\ ~ columns_preserved Example.scans_predicted df'.
Proof.
  eexists _, _. split; [vm_compute; reflexivity|].
  split; [reflexivity|]. split; [vm_compute; reflexivity|].
  split; [reflexivity|].
  assert (df_columns Example.scans_predicted !! "nn_prediction"
          = Some [PStr "stale"; PStr "stale"]) as Hold by reflexivity.
  split; [vm_compute; discriminate|].
  intros Hkeep. specialize (Hkeep _ _ Hold). vm_compute in Hkeep. discriminate.
Qed.

End DataFrameTheorems.

(* ===================================================================== *)
(** * Theorems: training orchestrator *)
(* ===================================================================== *)

Module TrainFacts.

(** [series.apply(f)] applies [f] to every cell, in order. *)
Lemma apply_lookup (f : pyval -> exn + pyval) (col out : list pyval) :
  Pd.apply f col = inr out ->
  length out = length col
  /\ forall r x, col !! r = Some x ->
                 exists y, f x = inr y /\ out !! r = Some y.
Proof.
  revert out. induction col as [|v col IH]; intros out.
  - intros [= <-]. split; [done|]. intros r x Hr. by destruct r.
  - cbn [Pd.apply]. destruct (f v) as [e|v'] eqn:Hv; [done|]. cbn.
    destruct (Pd.apply f col) as [e|rest'] eqn:Hrest; [done|]. cbn.
    intros [= <-]. destruct (IH _ eq_refl) as [Hlen Hcells].
    split; [cbn; by rewrite Hlen|].
    intros [|r] x Hr; cbn in Hr.
    + injection Hr as <-. by exists v'.
    + by apply Hcells.
Qed.

Lemma apply_total (f : pyval -> exn + pyval) (col : list pyval) :
  Forall (fun x => exists y, f x = inr y) col ->
  exists out, Pd.apply f col = inr out.
Proof.
  induction 1 as [|v col [y Hy] _ [out IH]]; [by exists []|].
  exists (y :: out). cbn [Pd.apply]. by rewrite Hy, IH.
Qed.

Lemma plaque_label_number (x : pyval) :
  Train.is_number x -> exists y, Train.plaque_label x = inr y.
Proof.
  intros [[q Hq] | ->]; [|by eexists].
  destruct x; try done; by eexists.
Qed.

(** The label of one cell. *)
Lemma plaque_label_threshold (x y : pyval) :
  Train.plaque_label x = inr y ->
  (forall q, Train.number_value x = Some q -> (3 # 2 <= q)%Q -> y = PInt 1)
  /\ (forall q, Train.number_value x = Some q -> ~ (3 # 2 <= q)%Q -> y = PInt 0)
  /\ (x = PNaN -> y = PInt 0).
Proof.
  destruct x as [| |z|q'| | |]; try done; cbn; intros [= <-].
  - split; [|split; [|done]]; intros q [= <-] Hq.
    + apply Qle_bool_iff in Hq. by rewrite Hq.
    + destruct (Qle_bool (3 # 2) (z # 1)) eqn:E; [|done].
      by apply Qle_bool_iff in E.
  - split; [|split; [|done]]; intros q [= <-] Hq.
    + apply Qle_bool_iff in Hq. by rewrite Hq.
    + destruct (Qle_bool (3 # 2) q') eqn:E; [|done].
      by apply Qle_bool_iff in E.
  - split; [|split]; done.
Qed.

(** C6: for every row, the derived label [gt_plaque] is 1 when the row's
    [gt_imt_max] is at least 1.5 and 0 otherwise. *)
Theorem derive_gt_plaque_threshold (df : DataFrame) (col : list pyval) :
  df_columns df !! "gt_imt_max" = Some col ->
  length col = Pd.nrows df ->
  Forall Train.is_number col ->
  exists df' labels,
    Train.derive_gt_plaque df = inr df'
    /\ df_columns df' !! "gt_plaque" = Some labels
    /\ length labels = Pd.nrows df
    /\ forall r x,
         col !! r = Some x ->
         (forall q, Train.number_value x = Some q -> (3 # 2 <= q)%Q ->
                    labels !! r = Some (PInt 1))
         /\ (forall q, Train.number_value x = Some q -> ~ (3 # 2 <= q)%Q ->
                       labels !! r = Some (PInt 0))
         /\ (x = PNaN -> labels !! r = Some (PInt 0)).
Proof.
  intros Hcol Hlen Hnum.
  destruct (apply_total Train.plaque_label col) as [labels Hlabels].
  { eapply Forall_impl; [exact Hnum|]. apply plaque_label_number. }
  destruct (apply_lookup _ _ _ Hlabels) as [Hlen' Hcells].
  unfold Train.derive_gt_plaque, Pd.getitem, Pd.setitem.
  rewrite Hcol. cbn. rewrite Hlabels. cbn.
  rewrite decide_True by congruence.
  eexists _, labels. split; [reflexivity|]. cbn.
  split; [apply lookup_insert_eq|]. split; [congruence|].
  intros r x Hr. destruct (Hcells _ _ Hr) as (y & Hy & ->).
  destruct (plaque_label_threshold _ _ Hy) as (H1 & H0 & Hnan).
  split; [|split].
  - intros q Hq Hle. f_equal. by eapply H1.
  - intros q Hq Hle. f_equal. by eapply H0.
  - intros Hx. f_equal. by apply Hnan.
Qed.

Lemma derive_gt_plaque_threshold_witness :
  let col := [PFloat (8 # 5); PFloat (7 # 10)] in
  df_columns Example.scans !! "gt_imt_max" = Some col
  /\ length col = Pd.nrows Example.scans
  /\ Forall Train.is_number col
  /\ exists df' labels,
       Train.derive_gt_plaque Example.scans = inr df'
       /\ df_columns df' !! "gt_plaque" = Some labels
       /\ labels !! 0%nat = Some (PInt 1)
       /\ labels !! 1%nat = Some (PInt 0).
Proof.
  intros col.
  assert (df_columns Example.scans !! "gt_imt_max" = Some col) as Hcol
    by (vm_compute; reflexivity).
  assert (Forall Train.is_number col) as Hnum
    by (repeat apply Forall_cons_2; try apply Forall_nil_2; left; by eexists).
  split; [exact Hcol|]. split; [reflexivity|]. split; [exact Hnum|].
  destruct (derive_gt_plaque_threshold Example.scans col Hcol eq_refl Hnum)
    as (df' & labels & Hrun & Hlab & _ & Hrows).
  exists df', labels. split; [exact Hrun|]. split; [exact Hlab|]. split.
  - apply (proj1 (Hrows 0%nat (PFloat (8 # 5)) eq_refl) (8 # 5)%Q eq_refl).
    unfold Qle. cbn. lia.
  - apply (proj1 (proj2 (Hrows 1%nat (PFloat (7 # 10)) eq_refl)) (7 # 10)%Q eq_refl).
    unfold Qle. cbn. lia.
Defined.

(** C5: the orchestrator raises two errors of its own: [SystemError] when
    the GPU is required and not found, [NotImplementedError] for an input
    type other than [img], [mask] and [img_and_mask]; with the GPU check
    passed, [img] selects the image-path column, [mask] the mask-path
    column and [img_and_mask] both, without an error. *)
Theorem device_and_modality_errors (FORCE_GPU silent_mode : bool)
    (device_name input_type : string) (w : world) :
  let gpu_missing := FORCE_GPU = true /\ device_name <> "/device:GPU:0" in
  let result :=
    fst (Train.device_and_modality FORCE_GPU device_name silent_mode input_type w) in
  (gpu_missing -> result = inl (SystemError "GPU device not found"))
  /\ (~ gpu_missing -> input_type ∉ ["img"; "mask"; "img_and_mask"] ->
      result = inl NotImplementedError)
  /\ (~ gpu_missing -> input_type = "img" -> result = inr "complete_path")
  /\ (~ gpu_missing -> input_type = "mask" -> result = inr "mask_path")
  /\ (~ gpu_missing -> input_type = "img_and_mask" -> result = inr "img_and_mask")
  /\ (forall e, result = inl e ->
                e = SystemError "GPU device not found" \/ e = NotImplementedError)
  /\ (forall df r,
        row_img_path "complete_path" df r = Pd.row_getitem df r "complete_path"
        /\ row_mask_path "complete_path" df r = inr PNone
        /\ row_img_path "mask_path" df r = inr PNone
        /\ row_mask_path "mask_path" df r = Pd.row_getitem df r "mask_path"
        /\ row_img_path "img_and_mask" df r = Pd.row_getitem df r "complete_path"
        /\ row_mask_path "img_and_mask" df r = Pd.row_getitem df r "mask_path").
Proof.
  intros gpu_missing result. subst gpu_missing result.
  unfold Train.device_and_modality, Train.validate_device,
    Train.resolve_input_column, mbind, M_bind, raise, mret, M_ret, emit.
  destruct FORCE_GPU; cbn.
  - destruct (String.eqb_spec device_name "/device:GPU:0") as [->|Hdev]; cbn.
    + assert (~ (true = true /\ "/device:GPU:0" <> "/device:GPU:0")) as Hok
        by (intros [_ H]; done).
      destruct silent_mode; cbn;
        (destruct (String.eqb_spec input_type "img") as [->|H1]; cbn;
         [|destruct (String.eqb_spec input_type "mask") as [->|H2]; cbn;
           [|destruct (String.eqb_spec input_type "img_and_mask") as [->|H3]; cbn]]);
        repeat split; try done; try (intros [_ ?]; done);
        try (intros _ Hnot; exfalso; apply Hnot; set_solver);
        try (intros e [= <-]; by right).
    + repeat split; try done; try (intros Hnot; exfalso; by apply Hnot);
        try (intros e [= <-]; by left).
  - assert (~ (false = true /\ device_name <> "/device:GPU:0")) as Hok
      by (intros [? _]; done).
    destruct (String.eqb_spec input_type "img") as [->|H1]; cbn;
      [|destruct (String.eqb_spec input_type "mask") as [->|H2]; cbn;
        [|destruct (String.eqb_spec input_type "img_and_mask") as [->|H3]; cbn]];
      repeat split; try done; try (intros [? _]; done);
      try (intros _ Hnot; exfalso; apply Hnot; set_solver);
      try (intros e [= <-]; by right).
Qed.

End TrainFacts.

(* ===================================================================== *)
(** * Theorems: batch diagnostic printer *)
(* ===================================================================== *)

Module PlotFacts.

(** One turn of the loop over the generator. *)
Lemma batch_loop_step (P : bool) (np_sub : ndarray -> ndarray -> exn + ndarray)
    (fuel : nat) (model : Model) (gen : generator) (plot_images : bool)
    (k : nat) (loops : Z) (errors : list ndarray) (w : world)
    (x_batch y_batch : ndarray) :
  batches gen k = Some (x_batch, y_batch) ->
  batch_loop P np_sub (S fuel) model gen plot_images k loops errors w
  = match (emit (EvNext k);;
           for_each (seq 0 (batch_size gen))
             (example_body P np_sub model plot_images x_batch y_batch) errors) w with
    | (inl e, w') => Some (inl e, w')
    | (inr errors', w') =>
        if loops - 1 =? 0
        then Some (inr errors', w')
        else batch_loop P np_sub fuel model gen plot_images (S k) (loops - 1)
               errors' w'
    end.
Proof. intros H. cbn [batch_loop]. by rewrite H. Qed.

(** One pass over a batch of [Example.endless]: one error is appended, the
    model is run once. *)
Lemma endless_iteration (k : nat) (errors : list ndarray) (w : world) :
  (emit (EvNext k);;
   for_each (seq 0 (batch_size Example.endless))
     (example_body false Example.np_sub Example.model false
        (fst Example.batch) (snd Example.batch)) errors) w
  = (inr (errors ++ [Arr [Num (-3 # 4); Num (-1 # 2)]])%list,
     after w [EvNext k;
              EvPredict (Arr [Arr [Arr [Num 0; Num 1];
                                   Arr [Num (1 # 2); Num (1 # 4)]]]);
              EvPrint "GT:        " (Some (Arr [Num 1; Num 0]));
              EvPrint "Predicted: " (Some (Arr [Num (7 # 4); Num (1 # 2)]));
              EvPrint "error:     " (Some (Arr [Num (-3 # 4); Num (-1 # 2)]))]).
Proof.
  unfold after. cbv -[app]. by rewrite <- !app_assoc.
Qed.

(** With a loop bound that is not positive, the loop over an endless
    generator never ends. *)
Lemma batch_loop_diverges (fuel : nat) :
  forall k loops errors w,
    loops <= 0 ->
    batch_loop false Example.np_sub fuel Example.model Example.endless false
      k loops errors w = None.
Proof.
  induction fuel as [|fuel IH]; intros k loops errors w Hloops; [done|].
  rewrite (batch_loop_step _ _ _ _ _ _ _ _ _ _
             (fst Example.batch) (snd Example.batch)) by reflexivity.
  rewrite endless_iteration.
  destruct (Z.eqb_spec (loops - 1) 0) as [Heq|_]; [lia|].
  apply IH. lia.
Qed.

(** With a positive loop bound [n], the loop over an endless generator
    ends after exactly [n] batches. *)
Lemma batch_loop_positive (n : nat) :
  forall fuel k errors w,
    (n < fuel)%nat ->
    exists errors' w',
      batch_loop false Example.np_sub fuel Example.model Example.endless false
        k (Z.of_nat (S n)) errors w = Some (inr errors', w')
      /\ length errors' = (length errors + S n)%nat
      /\ batches_consumed (log w') = (batches_consumed (log w) + S n)%nat
      /\ model_runs (log w') = (model_runs (log w) + S n)%nat.
Proof.
  induction n as [|n IH]; intros fuel k errors w Hfuel;
    (destruct fuel as [|fuel]; [lia|]);
    rewrite (batch_loop_step _ _ _ _ _ _ _ _ _ _
               (fst Example.batch) (snd Example.batch)) by reflexivity;
    rewrite endless_iteration.
  - cbn [Z.of_nat Pos.of_succ_nat Z.sub Z.add Z.opp Z.pos_sub Z.eqb].
    eexists _, _. split; [reflexivity|].
    unfold batches_consumed, model_runs, after. cbn [log].
    rewrite length_app, !List.filter_app, !length_app. cbn. lia.
  - destruct (Z.eqb_spec (Z.of_nat (S (S n)) - 1) 0) as [Heq|_]; [lia|].
    replace (Z.of_nat (S (S n)) - 1) with (Z.of_nat (S n)) by lia.
    destruct (IH fuel (S k) (errors ++ [Arr [Num (-3 # 4); Num (-1 # 2)]])%list
                (after w [EvNext k;
              EvPredict (Arr [Arr [Arr [Num 0; Num 1];
                                   Arr [Num (1 # 2); Num (1 # 4)]]]);
              EvPrint "GT:        " (Some (Arr [Num 1; Num 0]));
              EvPrint "Predicted: " (Some (Arr [Num (7 # 4); Num (1 # 2)]));
              EvPrint "error:     " (Some (Arr [Num (-3 # 4); Num (-1 # 2)]))]))
      as (errors' & w' & -> & Hlen & Hnext & Hruns); [lia|].
    exists errors', w'. split; [reflexivity|].
    rewrite Hlen, Hnext, Hruns.
    unfold batches_consumed, model_runs, after. cbn [log].
    rewrite length_app, !List.filter_app, !length_app. cbn. lia.
Qed.

(** C9 at the loop bound 0: over an endless (Keras) generator
    [plot_predictions] never returns, whatever the fuel; over a generator
    of two batches it consumes both and runs the model on each, where the
    documented meaning of [loops] is the number of batches to predict
    on. *)
Theorem plot_predictions_zero_loops :
  (forall fuel,
     plot_predictions false Example.np_sub Example.np_add Example.np_div fuel
       Example.model Example.endless false 0 empty_world = None)
  /\ exists w',
       plot_predictions false Example.np_sub Example.np_add Example.np_div 10
         Example.model Example.two_batches false 0 empty_world
         = Some (inr tt, w')
       /\ batches_consumed (log w') = 2%nat
       /\ model_runs (log w') = 2%nat.
Proof.
  split.
  - intros fuel. unfold plot_predictions. by rewrite batch_loop_diverges.
  - eexists. split; [vm_compute; reflexivity|]. split; reflexivity.
Qed.

End PlotFacts.

(* ===================================================================== *)
(** * Further theorems: single-sample predictor *)
(* ===================================================================== *)

Module PredictorExtra.
Section Extra.
Import MFacts PredictorFacts UnpackFacts.

Variable imread : string -> option (list (list byte)).
Variable resize : gray -> Z * Z -> gray.

(** The first part of [nn_predict_imt] only reads files, at most two, and
    fails in one of three ways. *)
Lemma input_data_of_cases (img_path mask_path : pyval) (input_shape : Z * Z)
    (w : world) :
  exists r evs,
    input_data_of imread resize img_path mask_path input_shape w = (r, after w evs)
    /\ (file_reads evs <= 2)%nat
    /\ model_runs evs = 0%nat
    /\ (forall err, r = inl err ->
                  err = TypeError \/ err = ValueError
                  \/ err = UnboundLocalError "input_data").
Proof.
  unfold input_data_of, load_gray, mbind, M_bind, mret, M_ret, raise, lift, emit.
  destruct img_path as [|p|?|?| |?|?], mask_path as [|p'|?|?| |?|?]; cbn;
    repeat match goal with
           | |- context [imread ?s] => destruct (imread s); cbn
           | |- context [Np.dstack ?a ?b] => unfold Np.dstack; case_decide; cbn
           end;
    rewrite <- ?app_assoc; cbn [app];
    (first [ eexists _, []; split; [by rewrite after_nil|]
           | eexists _, _; split; [reflexivity|] ]);
    (split; [cbn; lia|]); (split; [reflexivity|]);
    intros err [= <-]; auto.
Qed.

(** The loop over the heads fails with [IndexError] only. *)
Lemma unpack_error (prediction : ndarray) (tc : target_columns) :
  forall s e,
    for_each_pure tc (unpack_step prediction) s = inl e -> e = IndexError.
Proof.
  induction tc as [|[key v] rest IH]; intros [res c] e; [done|].
  cbn [for_each_pure unpack_step]. destruct (predict v); cbn.
  - unfold Np.getitem.
    destruct prediction as [q|items]; cbn; [by intros [= <-]|].
    destruct (items !! c); cbn; [apply IH | by intros [= <-]].
  - apply IH.
Qed.

(** The loop fails when the prediction has too few heads. *)
Lemma unpack_loop_fail (heads : list ndarray) (tc : target_columns) :
  forall res c,
    (c <= length heads)%nat ->
    (length heads < c + length (enabled_names tc))%nat ->
    for_each_pure tc (unpack_step (Arr heads)) (res, c) = inl IndexError.
Proof.
  induction tc as [|[key v] rest IH]; intros res c Hc Hlen.
  - cbn in Hlen. lia.
  - rewrite enabled_names_cons in Hlen. cbn [for_each_pure unpack_step].
    destruct (predict v); cbn.
    + cbn in Hlen. destruct (heads !! c) as [h|] eqn:Hh; cbn; [|done].
      apply lookup_lt_Some in Hh. apply IH; lia.
    + by apply IH.
Qed.

(** X1: [nn_predict_imt] never changes an object of the heap; it reads at
    most two files and runs the model at most once, exactly once when it
    returns a mapping. *)
Theorem nn_predict_imt_effects (img_path mask_path : pyval) (model : Model)
    (input_shape : Z * Z) (tc : target_columns) (w : world) :
  exists r evs,
    nn_predict_imt imread resize img_path mask_path model input_shape tc w
      = (r, after w evs)
    /\ (file_reads evs <= 2)%nat
    /\ (model_runs evs <= 1)%nat
    /\ (forall result, r = inr result -> model_runs evs = 1%nat).
Proof.
  rewrite nn_predict_imt_run.
  destruct (input_data_of_cases img_path mask_path input_shape w)
    as (r & evs & -> & Hreads & Hruns & _).
  destruct r as [e|x].
  - exists (inl e), evs. rewrite Hruns. repeat split; [done|lia|done].
  - eexists _, (evs ++ [EvPredict (Np.expand_dims0 x)])%list.
    rewrite after_after. split; [reflexivity|].
    unfold file_reads, model_runs in *.
    rewrite !List.filter_app, !length_app, Hruns. cbn. repeat split; lia.
Qed.

(** X3: called with neither path, [nn_predict_imt] raises the
    [UnboundLocalError] of [input_data] without reading a file or running
    the model. *)
Theorem nn_predict_imt_no_path (model : Model) (input_shape : Z * Z)
    (tc : target_columns) (w : world) :
  nn_predict_imt imread resize PNone PNone model input_shape tc w
    = (inl (UnboundLocalError "input_data"), w).
Proof. by rewrite nn_predict_imt_run, input_neither. Qed.

(** X4: when the model output has fewer heads than there are enabled
    targets ([n_outputs]), [nn_predict_imt] raises [IndexError] after the
    model was run. *)
Theorem nn_predict_imt_missing_head (img_path mask_path : pyval)
    (model : Model) (input_shape : Z * Z) (tc : target_columns)
    (w w1 : world) (x : ndarray) (heads : list ndarray) :
  input_data_of imread resize img_path mask_path input_shape w = (inr x, w1) ->
  model (Np.expand_dims0 x) = Arr heads ->
  (length heads < Orchestrator.n_outputs tc)%nat ->
  nn_predict_imt imread resize img_path mask_path model input_shape tc w
    = (inl IndexError, after w1 [EvPredict (Np.expand_dims0 x)]).
Proof.
  intros Hin Hmodel Hlen. rewrite nn_predict_imt_run, Hin, Hmodel.
  unfold Orchestrator.n_outputs, Orchestrator.selected_columns in Hlen.
  rewrite length_map in Hlen.
  unfold unpack_heads. rewrite unpack_loop_fail; [done|lia|lia].
Qed.

(** X5: a mapping returned by [nn_predict_imt] has exactly [n_outputs]
    entries, the number of outputs the orchestrator configures. *)
Theorem nn_predict_imt_size (img_path mask_path : pyval) (model : Model)
    (input_shape : Z * Z) (tc : target_columns) (w w' : world)
    (result : gmap string ndarray) :
  NoDup (map fst tc) ->
  nn_predict_imt imread resize img_path mask_path model input_shape tc w
    = (inr result, w') ->
  size result = Orchestrator.n_outputs tc.
Proof.
  intros Hnd Hrun.
  assert (dom result = list_to_set (enabled_names tc)) as Hdom.
  { apply set_eq. intros name.
    rewrite elem_of_dom, elem_of_list_to_set.
    by eapply nn_predict_imt_keys. }
  rewrite <- size_dom, Hdom, size_list_to_set
    by by apply enabled_names_NoDup.
  unfold Orchestrator.n_outputs, Orchestrator.selected_columns.
  by rewrite length_map.
Qed.

End Extra.
(** A model with a single head. *)
Lemma nn_predict_imt_missing_head_witness :
  let model : Model := fun batch => Arr [Arr [Arr [Num 1]]] in
  let x := nd_of_gray (Example.resize (Np.div255 [[x00; xff]; [x80; x40]]) (2, 2)) in
  input_data_of Example.imread Example.resize (PStr "scans/a.png") PNone (2, 2)
    empty_world
    = (inr x, after empty_world [EvImread (PStr "scans/a.png")])
  /\ model (Np.expand_dims0 x) = Arr [Arr [Arr [Num 1]]]
  /\ (length [Arr [Arr [Num 1]]] < Orchestrator.n_outputs Example.targets)%nat
  /\ nn_predict_imt Example.imread Example.resize (PStr "scans/a.png") PNone
       model (2, 2) Example.targets empty_world
     = (inl IndexError,
        after (after empty_world [EvImread (PStr "scans/a.png")])
          [EvPredict (Np.expand_dims0 x)]).
Proof.
  intros model x.
  assert (length [Arr [Arr [Num 1]]] < Orchestrator.n_outputs Example.targets)%nat
    as Hlen by (vm_compute; lia).
  split; [reflexivity|]. split; [reflexivity|]. split; [exact Hlen|].
  exact (nn_predict_imt_missing_head Example.imread Example.resize
           (PStr "scans/a.png") PNone model (2, 2) Example.targets empty_world
           (after empty_world [EvImread (PStr "scans/a.png")]) x
           [Arr [Arr [Num 1]]] eq_refl eq_refl Hlen).
Defined.

Lemma nn_predict_imt_size_witness :
  NoDup (map fst Example.targets)
  /\ exists result w',
       nn_predict_imt Example.imread Example.resize (PStr "scans/a.png")
         (PStr "masks/a.png") Example.model (2, 2) Example.targets empty_world
         = (inr result, w')
       /\ size result = 2%nat.
Proof.
  assert (NoDup (map fst Example.targets)) as Hnd
    by (apply (bool_decide_unpack _); vm_compute; exact I).
  split; [exact Hnd|].
  destruct (nn_predict_imt Example.imread Example.resize (PStr "scans/a.png")
              (PStr "masks/a.png") Example.model (2, 2) Example.targets
              empty_world) as [[e|result] w'] eqn:Hrun; [by vm_compute in Hrun|].
  exists result, w'. split; [reflexivity|].
  exact (nn_predict_imt_size Example.imread Example.resize _ _ _ _ _ _ _ _
           Hnd Hrun).
Defined.

End PredictorExtra.

(* ===================================================================== *)
(** * Further theorems: full-dataframe predictor *)
(* ===================================================================== *)

Module DataFrameExtra.
Section Extra.
Import MFacts PredictorFacts UnpackFacts DataFrameFacts.

Variable imread : string -> option (list (list byte)).
Variable resize : gray -> Z * Z -> gray.
Variables (model : Model) (input_column : string) (tc : target_columns).
Variable input_shape : Z * Z.

Local Abbreviation row_prediction :=
  (row_prediction imread resize model input_column tc input_shape).
Local Abbreviation row_events :=
  (row_events imread resize model input_column tc input_shape).
Local Abbreviation predict_row :=
  (predict_row imread resize model input_column tc input_shape).
Local Abbreviation run l :=
  (predict_complete_dataframe imread resize model l input_column tc
     input_shape).
Local Abbreviation announce :=
  (EvPrint "Predicting values from the complete dataframe, this could take a while" None).

(** One turn of the first loop, whether the predictor succeeds or not. *)
Lemma predict_row_general (df : DataFrame) (r : nat) (acc : list pyval)
    (w : world) :
  predict_row df acc r w
    = (match row_prediction df r with
       | inl e => inl e
       | inr p => inr (acc ++ [PDict p])%list
       end,
       after w (row_events df r)).
Proof.
  unfold row_prediction, row_events, predict_row.
  destruct (row_img_path input_column df r) as [e|img_path];
    [by rewrite after_nil|].
  destruct (row_mask_path input_column df r) as [e|mask_path];
    [by rewrite after_nil|].
  cbn. unfold lift, mbind, M_bind.
  rewrite (log_only_nn_predict_imt imread resize img_path mask_path model
             input_shape tc w).
  by destruct (result_of _).
Qed.

(** The first loop never changes the heap. *)
Lemma rows_loop_heap (df : DataFrame) (rows : list nat) :
  forall acc w r w',
    for_each rows (predict_row df) acc w = (r, w') -> heap w' = heap w.
Proof.
  induction rows as [|i rows IH]; intros acc w r w'.
  - by intros [= <- <-].
  - cbn [for_each]. rewrite bind_run, predict_row_general.
    destruct (row_prediction df i) as [e|p].
    + by intros [= <- <-].
    + intros Hrest. by rewrite (IH _ _ _ _ Hrest).
Qed.

(** A first loop that ends normally collected one mapping per row. *)
Lemma rows_loop_inv (df : DataFrame) (rows : list nat) :
  forall acc w out w',
    for_each rows (predict_row df) acc w = (inr out, w') ->
    exists preds,
      out = (acc ++ map PDict preds)%list
      /\ Forall2 (fun r p => row_prediction df r = inr p) rows preds.
Proof.
  induction rows as [|i rows IH]; intros acc w out w'.
  - intros [= <- <-]. exists []. by rewrite app_nil_r.
  - cbn [for_each]. rewrite bind_run, predict_row_general.
    destruct (row_prediction df i) as [e|p] eqn:Hp; [done|].
    intros Hrest. destruct (IH _ _ _ _ Hrest) as (preds & -> & Hall).
    exists (p :: preds). split; [by rewrite <- app_assoc|].
    by constructor.
Qed.

(** A first loop that raises does so at the first row whose prediction
    fails. *)
Lemma rows_loop_fail (df : DataFrame) (rows : list nat) :
  forall acc w e w',
    for_each rows (predict_row df) acc w = (inl e, w') ->
    exists i r,
      rows !! i = Some r
      /\ row_prediction df r = inl e
      /\ forall j r', (j < i)%nat -> rows !! j = Some r' ->
                      exists p, row_prediction df r' = inr p.
Proof.
  induction rows as [|i0 rows IH]; intros acc w e w'; [done|].
  cbn [for_each]. rewrite bind_run, predict_row_general.
  destruct (row_prediction df i0) as [e0|p] eqn:Hp.
  - intros [= <- <-]. exists 0%nat, i0. split; [done|]. split; [done|]. lia.
  - intros Hrest. destruct (IH _ _ _ _ Hrest) as (i & r & Hi & Hr & Hbefore).
    exists (S i), r. split; [done|]. split; [done|].
    intros [|j] r' Hj Hr'; cbn in Hr'.
    + injection Hr' as <-. by exists p.
    + apply (Hbefore j); [lia|done].
Qed.

(** An exception of the first loop is the exception of the call. *)
Lemma run_fail (l : loc) (w w2 : world) (df : DataFrame) (e : exn) :
  heap w !! l = Some df ->
  for_each (seq 0 (Pd.nrows df)) (predict_row df) [] (after w [announce])
    = (inl e, w2) ->
  run l w = (inl e, w2).
Proof.
  intros Hl Hloop. unfold predict_complete_dataframe.
  unfold mbind at 1 2 3, M_bind, emit, deref. cbn [heap log]. rewrite Hl.
  unfold after in Hloop. by rewrite Hloop.
Qed.

(** A call that did not raise in the first loop returns. *)
Lemma run_inv (l : loc) (w : world) (df : DataFrame) :
  NoDup (map fst tc) ->
  heap w !! l = Some df ->
  (exists e w', run l w = (inl e, w') /\ heap w' = heap w
                /\ for_each (seq 0 (Pd.nrows df)) (predict_row df) []
                     (after w [announce]) = (inl e, w'))
  \/ (exists preds,
        Forall2 (fun r p => row_prediction df r = inr p)
          (seq 0 (Pd.nrows df)) preds).
Proof.
  intros Hnd Hl.
  destruct (for_each (seq 0 (Pd.nrows df)) (predict_row df) []
              (after w [announce])) as [[e|out] w2] eqn:Hloop.
  - left. exists e, w2. split; [by apply (run_fail l w w2 df)|].
    split; [|done]. by rewrite (rows_loop_heap _ _ _ _ _ _ Hloop).
  - right. destruct (rows_loop_inv _ _ _ _ _ _ Hloop) as (preds & _ & Hall).
    by exists preds.
Qed.

(** X6: an exception of [predict_complete_dataframe] leaves every object
    of the heap, the caller's dataframe among them, as it was: it is the
    exception of the first row on which the predictor fails, raised before
    any column is set. *)
Theorem predict_complete_dataframe_exception (l : loc) (w w' : world)
    (df : DataFrame) (e : exn) :
  NoDup (map fst tc) ->
  heap w !! l = Some df ->
  run l w = (inl e, w') ->
  heap w' = heap w
  /\ exists i,
       (i < Pd.nrows df)%nat
       /\ row_prediction df i = inl e
       /\ forall j, (j < i)%nat -> exists p, row_prediction df j = inr p.
Proof.
  intros Hnd Hl Hrun.
  destruct (run_inv l w df Hnd Hl)
    as [(e0 & w0 & Hrun0 & Hheap & Hloop) | (preds & Hall)].
  - rewrite Hrun0 in Hrun. injection Hrun as <- <-. split; [done|].
    destruct (rows_loop_fail _ _ _ _ _ _ Hloop) as (i & r & Hi & Hr & Hbefore).
    apply lookup_seq in Hi as [-> Hlt]. exists i.
    split; [done|]. split; [done|].
    intros j Hj. apply (Hbefore j j Hj). apply lookup_seq. split; [done|lia].
  - by rewrite (predict_complete_dataframe_run imread resize model input_column
                  tc input_shape l w df preds Hnd Hl Hall) in Hrun.
Qed.

(** X7: [predict_complete_dataframe] returns exactly when the predictor
    succeeds on every row. *)
Theorem predict_complete_dataframe_returns_iff (l : loc) (w : world)
    (df : DataFrame) :
  NoDup (map fst tc) ->
  heap w !! l = Some df ->
  (exists w', run l w = (inr l, w'))
  <-> (forall i, (i < Pd.nrows df)%nat -> exists p, row_prediction df i = inr p).
Proof.
  intros Hnd Hl. split.
  - intros [w' Hrun] i Hi.
    destruct (run_inv l w df Hnd Hl)
      as [(e0 & w0 & Hrun0 & _) | (preds & Hall)]; [congruence|].
    destruct (Forall2_lookup_l _ _ _ i i Hall) as (p & _ & Hp);
      [by apply lookup_seq|].
    by exists p.
  - intros Hrows. eexists.
    eapply (predict_complete_dataframe_run imread resize model input_column tc
              input_shape l w df); [done|done|].
    apply (Forall2_results (row_prediction df) ∅).
    apply Forall_forall. intros i Hi. apply Hrows.
    apply elem_of_seq in Hi. lia.
Qed.

(** X8: on a dataframe without rows [predict_complete_dataframe] returns
    after its announcement, without reading a file or running the model,
    and the columns it sets are empty. *)
Theorem predict_complete_dataframe_empty (l : loc) (w : world) (df : DataFrame) :
  NoDup (map fst tc) ->
  heap w !! l = Some df ->
  Pd.nrows df = 0%nat ->
  exists df',
    run l w = (inr l, mkWorld (<[l := df']> (heap w)) (log w ++ [announce]))
    /\ df_index df' = df_index df
    /\ df_columns df' !! "nn_prediction" = Some []
    /\ forall name, name ∈ enabled_names tc ->
                    df_columns df' !! predicted_name name = Some [].
Proof.
  intros Hnd Hl Hrows.
  assert (Forall2 (fun r p => row_prediction df r = inr p)
            (seq 0 (Pd.nrows df)) []) as Hall by (rewrite Hrows; constructor).
  eexists. split.
  - rewrite (predict_complete_dataframe_run imread resize model input_column
               tc input_shape l w df [] Hnd Hl Hall).
    rewrite Hrows. reflexivity.
  - cbn [df_index df_columns]. split; [done|]. split.
    + rewrite with_predicted_other; [apply lookup_insert_eq|].
      intros Hin. apply list_elem_of_fmap in Hin as (k & Hk & _).
      by apply eq_sym, predicted_name_not_nn in Hk.
    + intros name Hname. by rewrite with_predicted_lookup.
Qed.

(** X9: when the image path is needed and the dataframe has rows but no
    [complete_path] column, [predict_complete_dataframe] raises that
    [KeyError] right after its announcement and changes nothing. *)
Theorem predict_complete_dataframe_missing_column (l : loc) (w : world)
    (df : DataFrame) :
  heap w !! l = Some df ->
  input_column <> "mask_path" ->
  df_columns df !! "complete_path" = None ->
  (0 < Pd.nrows df)%nat ->
  run l w = (inl (KeyError "complete_path"), after w [announce]).
Proof.
  intros Hl Hcol Hmissing Hrows.
  apply (run_fail l w _ df); [done|].
  destruct (Pd.nrows df) as [|n]; [lia|].
  cbn [seq for_each]. rewrite bind_run, predict_row_general.
  unfold row_prediction, row_events, row_img_path, Pd.row_getitem.
  apply String.eqb_neq in Hcol. rewrite Hcol, Hmissing. cbn.
  by rewrite after_nil.
Qed.

(** X10: [predict_complete_dataframe] keeps the dataframe well formed:
    when every column had one cell per row before the call, every column
    has one cell per row after it. *)
Theorem predict_complete_dataframe_well_formed (l : loc) (w w' : world)
    (df : DataFrame) :
  NoDup (map fst tc) ->
  heap w !! l = Some df ->
  well_formed df ->
  run l w = (inr l, w') ->
  exists df', heap w' !! l = Some df' /\ Pd.nrows df' = Pd.nrows df
              /\ well_formed df'.
Proof.
  intros Hnd Hl Hwf Hrun.
  destruct (run_inv l w df Hnd Hl)
    as [(e0 & w0 & Hrun0 & _) | (preds & Hall)]; [congruence|].
  rewrite (predict_complete_dataframe_run imread resize model input_column
             tc input_shape l w df preds Hnd Hl Hall) in Hrun.
  injection Hrun as <-.
  assert (length preds = Pd.nrows df) as Hlen.
  { apply Forall2_length in Hall. by rewrite length_seq in Hall. }
  eexists. cbn [heap]. split; [apply lookup_insert_eq|]. split; [done|].
  intros name col. unfold Pd.nrows. cbn [df_index df_columns].
  destruct (decide (name ∈ map predicted_name (enabled_names tc))) as [Hin|Hout].
  - apply list_elem_of_fmap in Hin as (k & -> & Hk).
    rewrite with_predicted_lookup by done. intros [= <-].
    by rewrite predicted_col_length.
  - rewrite with_predicted_other by done.
    destruct (decide (name = "nn_prediction")) as [->|Hne].
    + rewrite lookup_insert_eq. intros [= <-]. by rewrite length_map.
    + rewrite lookup_insert_ne by done. apply Hwf.
Qed.

(** The prediction of a row depends on the two path columns only. *)
Lemma row_prediction_ext (df df' : DataFrame) (r : nat) :
  df_columns df' !! "complete_path" = df_columns df !! "complete_path" ->
  df_columns df' !! "mask_path" = df_columns df !! "mask_path" ->
  row_prediction df' r = row_prediction df r.
Proof.
  intros Himg Hmask.
  unfold row_prediction, row_img_path, row_mask_path, Pd.row_getitem.
  by rewrite Himg, Hmask.
Qed.

(** X11: a second call of [predict_complete_dataframe] on the table that
    a first call returned succeeds and leaves the table as the first call
    left it. *)
Theorem predict_complete_dataframe_twice (l : loc) (w w1 : world)
    (df : DataFrame) :
  NoDup (map fst tc) ->
  heap w !! l = Some df ->
  run l w = (inr l, w1) ->
  exists w2, run l w1 = (inr l, w2) /\ heap w2 = heap w1.
Proof.
  intros Hnd Hl Hrun.
  destruct (run_inv l w df Hnd Hl)
    as [(e0 & w0 & Hrun0 & _) | (preds & Hall)]; [congruence|].
  rewrite (predict_complete_dataframe_run imread resize model input_column
             tc input_shape l w df preds Hnd Hl Hall) in Hrun.
  injection Hrun as <-.
  set (names := enabled_names tc).
  set (cols1 := with_predicted preds names
                  (<["nn_prediction" := map PDict preds]> (df_columns df))).
  set (df1 := mkDataFrame (df_index df) cols1).
  assert (forall c, c ∉ map predicted_name names -> c <> "nn_prediction" ->
                    cols1 !! c = df_columns df !! c) as Hold.
  { intros c Hc Hne. unfold cols1.
    by rewrite with_predicted_other, lookup_insert_ne. }
  assert (forall c : string, String.get 0 c <> Some "p"%char ->
                             c ∉ map predicted_name names) as Hnotp.
  { intros c Hc Hin. apply list_elem_of_fmap in Hin as (k & -> & _). done. }
  assert (Forall2 (fun r p => row_prediction df1 r = inr p)
            (seq 0 (Pd.nrows df1)) preds) as Hall1.
  { eapply Forall2_impl; [exact Hall|]. intros r p Hp. cbn in Hp |- *.
    rewrite <- Hp. apply row_prediction_ext; apply Hold; try done;
      by apply Hnotp. }
  eexists. split.
  - apply (predict_complete_dataframe_run imread resize model input_column tc
             input_shape l _ df1 preds Hnd); [apply lookup_insert_eq|exact Hall1].
  - cbn [heap]. rewrite insert_insert_eq. f_equal. unfold df1. f_equal.
    cbn [df_index df_columns]. fold names. apply map_eq. intros c.
    destruct (decide (c ∈ map predicted_name names)) as [Hin|Hout].
    + apply list_elem_of_fmap in Hin as (k & -> & Hk).
      unfold cols1. by rewrite !with_predicted_lookup.
    + rewrite with_predicted_other by done.
      destruct (decide (c = "nn_prediction")) as [->|Hne].
      * rewrite lookup_insert_eq. unfold cols1.
        by rewrite with_predicted_other, lookup_insert_eq.
      * by rewrite lookup_insert_ne.
Qed.

End Extra.
Lemma example_well_formed : well_formed Example.scans.
Proof.
  intros name col Hcol. unfold Example.scans in Hcol. cbn [df_columns] in Hcol.
  repeat (apply lookup_insert_Some in Hcol as [[_ <-]|[_ Hcol]]; [reflexivity|]).
  apply lookup_singleton_Some in Hcol as [_ <-]. reflexivity.
Qed.

Lemma example_run :
  exists w',
    predict_complete_dataframe Example.imread Example.resize Example.model
      1%positive "img_and_mask" Example.targets (2, 2) Example.world1
    = (inr 1%positive, w').
Proof.
  eexists.
  exact (DataFrameFacts.predict_complete_dataframe_run Example.imread
           Example.resize Example.model "img_and_mask" Example.targets (2, 2)
           1%positive Example.world1 Example.scans _
           DataFrameTheorems.example_targets_NoDup eq_refl
           (DataFrameTheorems.example_rows _ (or_introl eq_refl))).
Qed.

Lemma predict_complete_dataframe_exception_witness :
  NoDup (map fst Example.targets)
  /\ heap Example2.world_broken !! 1%positive = Some Example2.scans_broken
  /\ exists w',
       predict_complete_dataframe Example.imread Example.resize Example.model
         1%positive "img_and_mask" Example.targets (2, 2) Example2.world_broken
       = (inl TypeError, w')
       /\ heap w' = heap Example2.world_broken.
Proof.
  split; [exact DataFrameTheorems.example_targets_NoDup|].
  split; [reflexivity|].
  destruct (predict_complete_dataframe Example.imread Example.resize
              Example.model 1%positive "img_and_mask" Example.targets (2, 2)
              Example2.world_broken) as [[e|l'] w'] eqn:Hrun;
    [|by vm_compute in Hrun].
  assert (e = TypeError) as -> by (vm_compute in Hrun; congruence).
  exists w'. split; [reflexivity|].
  exact (proj1 (predict_complete_dataframe_exception Example.imread
                  Example.resize Example.model "img_and_mask" Example.targets
                  (2, 2) 1%positive Example2.world_broken w'
                  Example2.scans_broken TypeError
                  DataFrameTheorems.example_targets_NoDup eq_refl Hrun)).
Defined.

Lemma predict_complete_dataframe_returns_iff_witness :
  NoDup (map fst Example.targets)
  /\ heap Example.world1 !! 1%positive = Some Example.scans
  /\ forall i, (i < Pd.nrows Example.scans)%nat ->
       exists p,
         row_prediction Example.imread Example.resize Example.model
           "img_and_mask" Example.targets (2, 2) Example.scans i = inr p.
Proof.
  split; [exact DataFrameTheorems.example_targets_NoDup|].
  split; [reflexivity|].
  apply (predict_complete_dataframe_returns_iff Example.imread Example.resize
           Example.model "img_and_mask" Example.targets (2, 2) 1%positive
           Example.world1 Example.scans
           DataFrameTheorems.example_targets_NoDup eq_refl).
  destruct example_run as [w' Hrun]. by exists w'.
Defined.

Lemma predict_complete_dataframe_empty_witness :
  NoDup (map fst Example.targets)
  /\ heap Example2.world_empty !! 1%positive = Some Example2.no_scans
  /\ Pd.nrows Example2.no_scans = 0%nat
  /\ exists df',
       fst (predict_complete_dataframe Example.imread Example.resize
              Example.model 1%positive "img_and_mask" Example.targets (2, 2)
              Example2.world_empty) = inr 1%positive
       /\ df_columns df' !! "nn_prediction" = Some [].
Proof.
  split; [exact DataFrameTheorems.example_targets_NoDup|].
  split; [reflexivity|]. split; [reflexivity|].
  destruct (predict_complete_dataframe_empty Example.imread Example.resize
              Example.model "img_and_mask" Example.targets (2, 2) 1%positive
              Example2.world_empty Example2.no_scans
              DataFrameTheorems.example_targets_NoDup eq_refl eq_refl)
    as (df' & Hrun & _ & Hnn & _).
  exists df'. split; [by rewrite Hrun|exact Hnn].
Defined.

Lemma predict_complete_dataframe_missing_column_witness :
  heap Example2.world_masks !! 1%positive = Some Example2.masks_only
  /\ "img_and_mask" <> "mask_path"
  /\ df_columns Example2.masks_only !! "complete_path" = None
  /\ (0 < Pd.nrows Example2.masks_only)%nat
  /\ fst (predict_complete_dataframe Example.imread Example.resize
            Example.model 1%positive "img_and_mask" Example.targets (2, 2)
            Example2.world_masks) = inl (KeyError "complete_path").
Proof.
  assert (df_columns Example2.masks_only !! "complete_path" = None) as Hnone
    by (vm_compute; reflexivity).
  assert (0 < Pd.nrows Example2.masks_only)%nat as Hrows by (cbn; lia).
  split; [reflexivity|]. split; [done|]. split; [exact Hnone|].
  split; [exact Hrows|].
  by rewrite (predict_complete_dataframe_missing_column Example.imread
                Example.resize Example.model "img_and_mask" Example.targets
                (2, 2) 1%positive Example2.world_masks Example2.masks_only
                eq_refl ltac:(done) Hnone Hrows).
Defined.

Lemma predict_complete_dataframe_well_formed_witness :
  NoDup (map fst Example.targets)
  /\ heap Example.world1 !! 1%positive = Some Example.scans
  /\ well_formed Example.scans
  /\ exists w' df',
       predict_complete_dataframe Example.imread Example.resize Example.model
         1%positive "img_and_mask" Example.targets (2, 2) Example.world1
       = (inr 1%positive, w')
       /\ heap w' !! 1%positive = Some df' /\ well_formed df'.
Proof.
  split; [exact DataFrameTheorems.example_targets_NoDup|].
  split; [reflexivity|]. split; [exact example_well_formed|].
  destruct example_run as [w' Hrun].
  destruct (predict_complete_dataframe_well_formed Example.imread
              Example.resize Example.model "img_and_mask" Example.targets
              (2, 2) 1%positive Example.world1 w' Example.scans
              DataFrameTheorems.example_targets_NoDup eq_refl
              example_well_formed Hrun) as (df' & Hdf & _ & Hwf).
  by exists w', df'.
Defined.

Lemma predict_complete_dataframe_twice_witness :
  NoDup (map fst Example.targets)
  /\ heap Example.world1 !! 1%positive = Some Example.scans
  /\ exists w1 w2,
       predict_complete_dataframe Example.imread Example.resize Example.model
         1%positive "img_and_mask" Example.targets (2, 2) Example.world1
       = (inr 1%positive, w1)
       /\ predict_complete_dataframe Example.imread Example.resize
            Example.model 1%positive "img_and_mask" Example.targets (2, 2) w1
          = (inr 1%positive, w2)
       /\ heap w2 = heap w1.
Proof.
  split; [exact DataFrameTheorems.example_targets_NoDup|].
  split; [reflexivity|].
  destruct example_run as [w1 Hrun].
  destruct (predict_complete_dataframe_twice Example.imread Example.resize
              Example.model "img_and_mask" Example.targets (2, 2) 1%positive
              Example.world1 w1 Example.scans
              DataFrameTheorems.example_targets_NoDup eq_refl Hrun)
    as (w2 & Hrun2 & Hheap).
  by exists w1, w2.
Defined.

End DataFrameExtra.

(* ===================================================================== *)
(** * Further theorems: batch diagnostic printer *)
(* ===================================================================== *)

Module PlotExtra.
Section Extra.
Import MFacts.

Variable PREDICT_PLAQUE : bool.
Variable np_sub : ndarray -> ndarray -> exn + ndarray.
Variable np_add : ndarray -> ndarray -> exn + ndarray.
Variable np_div : ndarray -> Z -> ndarray.
Variables (model : Model) (gen : generator) (plot_images : bool).

Local Abbreviation example_body :=
  (example_body PREDICT_PLAQUE np_sub model plot_images).
Local Abbreviation gen_loop fuel :=
  (batch_loop PREDICT_PLAQUE np_sub fuel model gen plot_images).
Local Abbreviation plot fuel :=
  (plot_predictions PREDICT_PLAQUE np_sub np_add np_div fuel model gen
     plot_images).

(** The loop ends when the generator is exhausted. *)
Lemma batch_loop_exhausted (fuel k : nat) (loops : Z) (errors : list ndarray)
    (w : world) :
  batches gen k = None ->
  gen_loop (S fuel) k loops errors w = Some (inr errors, w).
Proof. intros Hk. cbn [batch_loop]. by rewrite Hk. Qed.

Lemma count_app (f : event -> bool) (evs1 evs2 : list event) :
  length (List.filter f (evs1 ++ evs2))
  = (length (List.filter f evs1) + length (List.filter f evs2))%nat.
Proof. by rewrite List.filter_app, length_app. Qed.

(** One example: no batch is fetched; when no exception is raised, one
    error is appended and the model is run once. *)
Lemma example_body_spec (x_batch y_batch : ndarray) (errors : list ndarray)
    (i : nat) (w : world) :
  exists r evs,
    example_body x_batch y_batch errors i w = (r, after w evs)
    /\ batches_consumed evs = 0%nat
    /\ forall errors', r = inr errors' ->
         length errors' = S (length errors) /\ model_runs evs = 1%nat.
Proof.
  unfold example_body, mbind, M_bind, lift, emit, mret, M_ret.
  destruct PREDICT_PLAQUE, plot_images; cbn;
    repeat match goal with
           | |- context [match ?x with inl _ => _ | inr _ => _ end] =>
               destruct x; cbn
           end;
    rewrite <- ?app_assoc; cbn [app];
    (first [ eexists _, []; split; [by rewrite after_nil|]
           | eexists _, _; split; [reflexivity|] ]);
    (split; [reflexivity|]); intros errors' [= <-];
    rewrite ?length_app; cbn; split; (reflexivity || lia).
Qed.

(** The loop over the examples of one batch. *)
Lemma examples_loop_spec (x_batch y_batch : ndarray) (xs : list nat) :
  forall errors w,
  exists r evs,
    for_each xs (example_body x_batch y_batch) errors w = (r, after w evs)
    /\ batches_consumed evs = 0%nat
    /\ forall errors', r = inr errors' ->
         length errors' = (length errors + length xs)%nat
         /\ model_runs evs = length xs.
Proof.
  induction xs as [|i xs IH]; intros errors w.
  - exists (inr errors), []. rewrite after_nil. split; [done|].
    split; [done|]. intros errors' [= <-]. cbn. split; [lia|done].
  - cbn [for_each]. rewrite bind_run.
    destruct (example_body_spec x_batch y_batch errors i w)
      as (r & evs & -> & Hnext & Hok).
    destruct r as [e|errors1].
    + exists (inl e), evs. by repeat split.
    + destruct (Hok _ eq_refl) as [Hlen Hruns].
      destruct (IH errors1 (after w evs)) as (r & evs' & -> & Hnext' & Hok').
      exists r, (evs ++ evs')%list. rewrite after_after. split; [done|].
      unfold batches_consumed, model_runs in *. rewrite !count_app.
      split; [lia|]. intros errors' ->.
      destruct (Hok' _ eq_refl) as [Hlen' Hruns']. cbn. lia.
Qed.

(** One turn of the loop over the generator: the batch is fetched, then
    its examples are gone through. *)
Lemma iteration_spec (x_batch y_batch : ndarray) (k : nat)
    (errors : list ndarray) (w : world) :
  exists r evs,
    (emit (EvNext k);;
     for_each (seq 0 (batch_size gen)) (example_body x_batch y_batch) errors) w
    = (r, after w evs)
    /\ batches_consumed evs = 1%nat
    /\ forall errors', r = inr errors' ->
         length errors' = (length errors + batch_size gen)%nat
         /\ model_runs evs = batch_size gen.
Proof.
  rewrite bind_run. cbn [emit].
  destruct (examples_loop_spec x_batch y_batch (seq 0 (batch_size gen)) errors
              (mkWorld (heap w) (log w ++ [EvNext k])))
    as (r & evs & -> & Hnext & Hok).
  exists r, (EvNext k :: evs). split.
  - unfold after. cbn. by rewrite <- app_assoc.
  - unfold batches_consumed, model_runs in *. cbn. split; [lia|].
    intros errors' Hr. destruct (Hok _ Hr) as [Hlen Hruns].
    by rewrite length_seq in Hlen, Hruns.
Qed.

(** Why the loop over the generator stops: after [m] batches, either
    because [m] is the loop bound or because the generator is exhausted. *)
Lemma batch_loop_stops (fuel : nat) :
  forall k loops errors w errors' w',
    gen_loop fuel k loops errors w = Some (inr errors', w') ->
    exists m evs,
      w' = after w evs
      /\ batches_consumed evs = m
      /\ model_runs evs = (m * batch_size gen)%nat
      /\ length errors' = (length errors + m * batch_size gen)%nat
      /\ ((0 < m)%nat /\ loops = Z.of_nat m \/ batches gen (k + m) = None)
      /\ forall j, (j < m)%nat -> batches gen (k + j) <> None.
Proof.
  induction fuel as [|fuel IH]; intros k loops errors w errors' w'; [done|].
  destruct (batches gen k) as [[x_batch y_batch]|] eqn:Hk.
  - rewrite (PlotFacts.batch_loop_step _ _ _ _ _ _ _ _ _ _ _ _ Hk).
    destruct (iteration_spec x_batch y_batch k errors w)
      as (r & evs & -> & Hnext & Hok).
    destruct r as [e|errors1]; [done|].
    destruct (Hok _ eq_refl) as [Hlen Hruns].
    destruct (Z.eqb_spec (loops - 1) 0) as [Hlast|Hmore].
    + intros [= <- <-]. exists 1%nat, evs. split; [done|]. split; [done|].
      split; [lia|]. split; [lia|]. split; [left; lia|].
      intros j Hj. replace (k + j)%nat with k by lia. by rewrite Hk.
    + intros Hrest.
      destruct (IH _ _ _ _ _ _ Hrest)
        as (m & evs' & -> & Hnext' & Hruns' & Hlen' & Hstop & Hsome).
      exists (S m), (evs ++ evs')%list. rewrite after_after. split; [done|].
      unfold batches_consumed, model_runs in *. rewrite !count_app.
      split; [lia|]. split; [lia|]. split; [lia|]. split.
      * destruct Hstop as [[Hm Hloops]|Hnone]; [left; lia|right].
        by replace (k + S m)%nat with (S k + m)%nat by lia.
      * intros [|j] Hj.
        -- replace (k + 0)%nat with k by lia. by rewrite Hk.
        -- replace (k + S j)%nat with (S k + j)%nat by lia. apply Hsome. lia.
  - rewrite batch_loop_exhausted by done. intros [= <- <-].
    exists 0%nat, []. rewrite after_nil, Nat.add_0_r.
    split; [done|]. split; [done|]. split; [done|]. split; [done|].
    split; [right; by rewrite Nat.add_0_r|]. intros j Hj. lia.
Qed.

(** What a call that returned has done. *)
Lemma plot_predictions_inv (fuel : nat) (loops : Z) (w w' : world) :
  plot fuel loops w = Some (inr tt, w') ->
  exists m evs mean,
    w' = after w (evs ++ [EvPrint "Mean error: " (Some mean)])
    /\ batches_consumed evs = m
    /\ model_runs evs = (m * batch_size gen)%nat
    /\ (0 < m * batch_size gen)%nat
    /\ (loops = Z.of_nat m \/ batches gen m = None)
    /\ forall j, (j < m)%nat -> batches gen j <> None.
Proof.
  unfold plot_predictions.
  destruct (gen_loop fuel 0 loops [] w) as [[[e|errors] w1]|] eqn:Hloop;
    [done| |done].
  destruct (batch_loop_stops _ _ _ _ _ _ _ Hloop)
    as (m & evs & -> & Hnext & Hruns & Hlen & Hstop & Hsome).
  unfold print_mean_error, lift, raise, emit. rewrite bind_run.
  destruct (py_sum np_add errors) as [e|total]; [done|].
  destruct (decide (length errors = 0%nat)) as [Hnil|Hcons]; [done|].
  intros [= <-]. exists m, evs, (np_div total (Z.of_nat (length errors))).
  cbn in Hlen. split; [by rewrite <- after_after|].
  split; [done|]. split; [done|]. split; [lia|]. split; [|done].
  destruct Hstop as [[_ Hloops]|Hnone]; [by left|by right].
Qed.


Lemma batch_loop_ends_bound (fuel : nat) :
  forall k loops errors w,
    0 < loops <= Z.of_nat fuel ->
    gen_loop fuel k loops errors w <> None.
Proof.
  induction fuel as [|fuel IH]; intros k loops errors w Hloops; [lia|].
  destruct (batches gen k) as [[x_batch y_batch]|] eqn:Hk.
  - rewrite (PlotFacts.batch_loop_step _ _ _ _ _ _ _ _ _ _ _ _ Hk).
    destruct (iteration_spec x_batch y_batch k errors w)
      as (r & evs & -> & _).
    destruct r as [e|errors1]; [done|].
    destruct (Z.eqb_spec (loops - 1) 0) as [Hlast|Hmore]; [done|].
    apply IH. lia.
  - by rewrite batch_loop_exhausted.
Qed.

Lemma batch_loop_ends_exhausted (fuel : nat) :
  forall k m loops errors w,
    batches gen m = None -> (k <= m)%nat -> (m - k < fuel)%nat ->
    gen_loop fuel k loops errors w <> None.
Proof.
  induction fuel as [|fuel IH]; intros k m loops errors w Hm Hk Hfuel; [lia|].
  destruct (batches gen k) as [[x_batch y_batch]|] eqn:Hbatch.
  - rewrite (PlotFacts.batch_loop_step _ _ _ _ _ _ _ _ _ _ _ _ Hbatch).
    destruct (iteration_spec x_batch y_batch k errors w)
      as (r & evs & -> & _).
    destruct r as [e|errors1]; [done|].
    destruct (Z.eqb_spec (loops - 1) 0) as [Hlast|Hmore]; [done|].
    assert (k <> m) by (intros ->; congruence).
    apply (IH _ m); [done|lia|lia].
  - by rewrite batch_loop_exhausted.
Qed.

(** X13: for a positive loop bound [plot_predictions] ends within that
    many turns of its loop, whatever the generator and the model. *)
Theorem plot_predictions_ends_bound (fuel : nat) (loops : Z) (w : world) :
  0 < loops <= Z.of_nat fuel ->
  plot fuel loops w <> None.
Proof.
  intros Hloops. unfold plot_predictions.
  pose proof (batch_loop_ends_bound fuel 0 loops [] w Hloops) as Hends.
  by destruct (gen_loop fuel 0 loops [] w) as [[[e|errors] w1]|].
Qed.

(** X14: on a generator that is exhausted after [m] batches
    [plot_predictions] ends within [m + 1] turns of its loop, whatever the
    loop bound. *)
Theorem plot_predictions_ends_exhausted (fuel m : nat) (loops : Z) (w : world) :
  batches gen m = None ->
  (m < fuel)%nat ->
  plot fuel loops w <> None.
Proof.
  intros Hm Hfuel. unfold plot_predictions.
  pose proof (batch_loop_ends_exhausted fuel 0 m loops [] w Hm) as Hends.
  destruct (gen_loop fuel 0 loops [] w) as [[[e|errors] w1]|]; [done|done|].
  exfalso. apply Hends; [lia|lia|done].
Qed.

(** X15: with a loop bound that is not positive and a generator that is
    never exhausted, [plot_predictions] never returns: the mean error is
    never printed. *)
Theorem plot_predictions_never_returns (fuel : nat) (loops : Z) (w w' : world) :
  loops <= 0 ->
  (forall k, batches gen k <> None) ->
  plot fuel loops w <> Some (inr tt, w').
Proof.
  intros Hloops Hendless Hrun.
  destruct (plot_predictions_inv _ _ _ _ Hrun)
    as (m & evs & mean & _ & _ & _ & Hpos & Hstop & _).
  destruct Hstop as [Hm|Hnone]; [lia|by apply (Hendless m)].
Qed.

(** X16: on a generator that yields no batch [plot_predictions] raises
    [ZeroDivisionError] (the mean of no error), without running the
    model. *)
Theorem plot_predictions_no_batch (fuel : nat) (loops : Z) (w : world) :
  batches gen 0 = None ->
  plot (S fuel) loops w = Some (inl ZeroDivisionError, w).
Proof.
  intros Hnone. unfold plot_predictions.
  by rewrite batch_loop_exhausted.
Qed.

End Extra.

Lemma plot_predictions_ends_bound_witness :
  0 < 3 <= Z.of_nat 5
  /\ plot_predictions false Example.np_sub Example.np_add Example.np_div 5
       Example.model Example.endless false 3 empty_world <> None.
Proof.
  assert (0 < 3 <= Z.of_nat 5) as H by (cbn; lia).
  split; [exact H|].
  exact (plot_predictions_ends_bound false Example.np_sub Example.np_add
           Example.np_div Example.model Example.endless false 5 3 empty_world H).
Defined.

Lemma plot_predictions_ends_exhausted_witness :
  batches Example.two_batches 2 = None
  /\ (2 < 3)%nat
  /\ plot_predictions false Example.np_sub Example.np_add Example.np_div 3
       Example.model Example.two_batches false 0 empty_world <> None.
Proof.
  assert (2 < 3)%nat as H by lia.
  split; [reflexivity|]. split; [exact H|].
  exact (plot_predictions_ends_exhausted false Example.np_sub Example.np_add
           Example.np_div Example.model Example.two_batches false 3 2 0
           empty_world eq_refl H).
Defined.

Lemma plot_predictions_never_returns_witness :
  (-1) <= 0
  /\ (forall k, batches Example.endless k <> None)
  /\ forall fuel w',
       plot_predictions false Example.np_sub Example.np_add Example.np_div fuel
         Example.model Example.endless true (-1) empty_world
       <> Some (inr tt, w').
Proof.
  assert ((-1) <= 0) as H by lia.
  assert (forall k, batches Example.endless k <> None) as Hendless by done.
  split; [exact H|]. split; [exact Hendless|].
  intros fuel w'.
  exact (plot_predictions_never_returns false Example.np_sub Example.np_add
           Example.np_div Example.model Example.endless true fuel (-1)
           empty_world w' H Hendless).
Defined.

Lemma plot_predictions_no_batch_witness :
  let gen := mkGenerator 4 (fun _ => None) in
  batches gen 0 = None
  /\ plot_predictions false Example.np_sub Example.np_add Example.np_div 1
       Example.model gen false 1 empty_world
     = Some (inl ZeroDivisionError, empty_world).
Proof.
  intros gen. split; [reflexivity|].
  exact (plot_predictions_no_batch false Example.np_sub Example.np_add
           Example.np_div Example.model gen false 0 1 empty_world eq_refl).
Defined.

End PlotExtra.

(* ===================================================================== *)
(** * Further theorems: weighted binary cross-entropy *)
(* ===================================================================== *)

Module LossExtra.
Section Extra.
Import Loss.
Local Open Scope R_scope.

Variable bce_elem : R -> R -> R.

Lemma sum_scale (c : R) (xs : tensor) : sum (map (Rmult c) xs) = c * sum xs.
Proof.
  unfold sum. induction xs as [|x xs IH]; cbn; [lra|]. rewrite IH. lra.
Qed.

Lemma div_le_compat (a b : R) (n : nat) :
  (0 < n)%nat -> a <= b -> a / INR n <= b / INR n.
Proof.
  intros Hn Hab. apply Rmult_le_compat_r; [|done].
  left. by apply Rinv_0_lt_compat, lt_0_INR.
Qed.

(** The weighted sum lies between the plain sum and 11 times it. *)
Lemma weighted_sum_bounds (y_true y_pred : tensor) :
  Forall (fun t => 0 <= t <= 1) y_true ->
  Forall (fun x => 0 <= x) (binary_crossentropy bce_elem y_true y_pred) ->
  sum (binary_crossentropy bce_elem y_true y_pred)
    <= sum (weighted_terms bce_elem y_true y_pred)
    <= 11 * sum (binary_crossentropy bce_elem y_true y_pred).
Proof.
  unfold weighted_terms, binary_crossentropy, weights, sum.
  intros Hlab. revert y_pred.
  induction Hlab as [|t y_true Ht _ IH]; intros [|p y_pred] Hpos; cbn;
    try lra.
  apply Forall_cons in Hpos as [Hp Hpos]. specialize (IH _ Hpos). nra.
Qed.

(** X17: for labels between 0 and 1 and cross-entropy terms that are not
    negative, [weighted_bce] of tensors with at least one element lies
    between the unweighted mean cross-entropy and 11 times it; it is not
    negative. *)
Theorem weighted_bce_bounds (y_true y_pred : tensor) :
  (0 < length y_true)%nat ->
  length y_true = length y_pred ->
  Forall (fun t => 0 <= t <= 1) y_true ->
  Forall (fun x => 0 <= x) (binary_crossentropy bce_elem y_true y_pred) ->
  mean (binary_crossentropy bce_elem y_true y_pred)
    <= weighted_bce bce_elem y_true y_pred
    <= 11 * mean (binary_crossentropy bce_elem y_true y_pred)
  /\ 0 <= weighted_bce bce_elem y_true y_pred.
Proof.
  intros Hn Hlen Hlab Hpos.
  pose proof (weighted_sum_bounds y_true y_pred Hlab Hpos) as [Hlo Hhi].
  assert (0 <= sum (binary_crossentropy bce_elem y_true y_pred)) as Hsum.
  { clear -Hpos. unfold sum. induction Hpos as [|x xs Hx _ IH]; cbn; lra. }
  unfold weighted_bce, mean. fold (weighted_terms bce_elem y_true y_pred).
  rewrite (LossFacts.weighted_terms_length bce_elem y_true y_pred Hlen).
  assert (length (binary_crossentropy bce_elem y_true y_pred) = length y_true)
    as -> by (unfold binary_crossentropy; rewrite length_zip_with; lia).
  pose proof (div_le_compat _ _ _ Hn Hlo) as Hlo'.
  pose proof (div_le_compat _ _ _ Hn Hhi) as Hhi'.
  pose proof (div_le_compat _ _ _ Hn Hsum) as Hsum'.
  unfold Rdiv in *. split; [split|]; lra.
Qed.

(** X18: when every label is the same number [c], [weighted_bce] is the
    unweighted mean cross-entropy times [10 * c + 1]: the plain mean for
    labels 0, eleven times it for labels 1 (tensors with at least one
    element). *)
Theorem weighted_bce_constant_labels (c : R) (y_true y_pred : tensor) :
  (0 < length y_true)%nat ->
  length y_true = length y_pred ->
  Forall (fun t => t = c) y_true ->
  weighted_bce bce_elem y_true y_pred
    = (10 * c + 1) * mean (binary_crossentropy bce_elem y_true y_pred).
Proof.
  intros _ Hlen Hlab.
  assert (weighted_terms bce_elem y_true y_pred
          = map (Rmult (10 * c + 1)) (binary_crossentropy bce_elem y_true y_pred))
    as Hterms.
  { unfold weighted_terms, binary_crossentropy, weights. clear Hlen.
    revert y_pred.
    induction Hlab as [|t y_true -> _ IH]; intros [|p y_pred]; try reflexivity.
    cbn. rewrite <- IH. f_equal. lra. }
  unfold weighted_bce, mean. fold (weighted_terms bce_elem y_true y_pred).
  rewrite Hterms, length_map, sum_scale. unfold Rdiv. lra.
Qed.

End Extra.

Lemma weighted_bce_bounds_witness :
  let y_true := [1; 0]%R in
  let y_pred := [1; 0]%R in
  (0 < length y_true)%nat
  /\ length y_true = length y_pred
  /\ Forall (fun t => 0 <= t <= 1)%R y_true
  /\ Forall (fun x => 0 <= x)%R
       (Loss.binary_crossentropy Loss.plain_bce y_true y_pred)
  /\ (0 <= Loss.weighted_bce Loss.plain_bce y_true y_pred)%R.
Proof.
  intros y_true y_pred.
  assert (Forall (fun t => 0 <= t <= 1)%R y_true) as Hlab
    by (repeat first [apply Forall_nil_2 | apply Forall_cons_2]; lra).
  assert (Forall (fun x => 0 <= x)%R
            (Loss.binary_crossentropy Loss.plain_bce y_true y_pred)) as Hpos.
  { unfold y_true, y_pred. cbn. unfold Loss.plain_bce.
    repeat first [apply Forall_nil_2 | apply Forall_cons_2].
    - rewrite ln_1. lra.
    - replace (1 - 0)%R with 1%R by lra. rewrite ln_1. lra. }
  assert (0 < length y_true)%nat as Hn by (cbn; lia).
  split; [exact Hn|].
  split; [reflexivity|]. split; [exact Hlab|]. split; [exact Hpos|].
  exact (proj2 (weighted_bce_bounds Loss.plain_bce y_true y_pred Hn eq_refl
                  Hlab Hpos)).
Defined.

Lemma weighted_bce_constant_labels_witness :
  let y_true := [1; 1; 1]%R in
  let y_pred := [1 / 2; 1 / 4; 3 / 4]%R in
  (0 < length y_true)%nat
  /\ length y_true = length y_pred
  /\ Forall (fun t => t = 1)%R y_true
  /\ Loss.weighted_bce Loss.plain_bce y_true y_pred
     = ((10 * 1 + 1)
        * Loss.mean (Loss.binary_crossentropy Loss.plain_bce y_true y_pred))%R.
Proof.
  intros y_true y_pred.
  assert (Forall (fun t => t = 1)%R y_true) as Hlab
    by (repeat first [apply Forall_nil_2 | apply Forall_cons_2]; reflexivity).
  assert (0 < length y_true)%nat as Hn by (cbn; lia).
  split; [exact Hn|]. split; [reflexivity|]. split; [exact Hlab|].
  exact (weighted_bce_constant_labels Loss.plain_bce 1 y_true y_pred Hn
           eq_refl Hlab).
Defined.

End LossExtra.

(* ===================================================================== *)
(** * Further theorems: training orchestrator *)
(* ===================================================================== *)

Module OrchestratorExtra.
Import Orchestrator.

(** [series.apply(f)] relates every cell to its image. *)
Lemma apply_Forall2 (f : pyval -> exn + pyval) (col out : list pyval) :
  Pd.apply f col = inr out -> Forall2 (fun x y => f x = inr y) col out.
Proof.
  revert out. induction col as [|v col IH]; intros out.
  - intros [= <-]. constructor.
  - cbn [Pd.apply]. destruct (f v) as [e|v'] eqn:Hv; [done|]. cbn.
    destruct (Pd.apply f col) as [e|rest'] eqn:Hrest; [done|]. cbn.
    intros [= <-]. constructor; [done|by apply IH].
Qed.


Lemma plaque_label_binary (x y : pyval) :
  Train.plaque_label x = inr y -> y = PInt 0 \/ y = PInt 1.
Proof.
  destruct x as [| |z|q| |a|]; try done; cbn;
    try destruct (Np.flat a) as [|q [|q' l]]; try done;
    intros [= <-]; try destruct (Qle_bool _ _); auto.
Qed.




(** X19: when the derivation of [gt_plaque] succeeds, the new column has
    one label per row, every label is 0 or 1, and the index and every
    other column are unchanged. *)
Theorem derive_gt_plaque_frame (df df' : DataFrame) :
  Train.derive_gt_plaque df = inr df' ->
  df_index df' = df_index df
  /\ (forall c, c <> "gt_plaque" -> df_columns df' !! c = df_columns df !! c)
  /\ exists labels,
       df_columns df' !! "gt_plaque" = Some labels
       /\ length labels = Pd.nrows df
       /\ Forall (fun v => v = PInt 0 \/ v = PInt 1) labels.
Proof.
  unfold Train.derive_gt_plaque, Pd.getitem, Pd.setitem.
  destruct (df_columns df !! "gt_imt_max") as [col|]; [|done]. cbn.
  destruct (Pd.apply Train.plaque_label col) as [e|labels] eqn:Hlabels; [done|].
  cbn. case_decide as Hlen; [|done]. intros [= <-]. cbn.
  split; [done|]. split; [intros c Hc; by rewrite lookup_insert_ne|].
  exists labels. split; [apply lookup_insert_eq|]. split; [done|].
  apply apply_Forall2 in Hlabels. clear Hlen.
  induction Hlabels as [|x y col labels Hy _ IH]; constructor; [|done].
  by eapply plaque_label_binary.
Qed.


Lemma compile_fold (tc : target_columns) :
  forall losses metrics loss_weights,
    fold_left compile_step tc (losses, metrics, loss_weights)
    = ((losses ++ map (fun kv => loss (snd kv))
                    (filter (fun kv => predict (snd kv) = true) tc))%list,
       if bool_decide ("plaque" ∈ enabled_names tc)
       then <["plaque" := [Recall "recall"; MetricName "accuracy"]]> metrics
       else metrics,
       (loss_weights ++ map (fun kv => weight (snd kv))
                          (filter (fun kv => predict (snd kv) = true) tc))%list).
Proof.
  induction tc as [|[key v] rest IH]; intros losses metrics loss_weights.
  - cbn. by rewrite !app_nil_r.
  - cbn [fold_left compile_step].
    rewrite UnpackFacts.enabled_names_cons.
    destruct (predict v) eqn:Hv.
    + rewrite IH, filter_cons_True by done. cbn [map snd].
      rewrite <- !app_assoc. cbn [app]. f_equal. f_equal.
      destruct (String.eqb_spec key "plaque") as [->|Hkey].
      * rewrite (bool_decide_eq_true_2 ("plaque" ∈ "plaque" :: _)) by left.
        case_bool_decide; [by rewrite insert_insert_eq|done].
      * case_bool_decide as H1; case_bool_decide as H2; try done.
        -- exfalso. apply H2. by right.
        -- apply elem_of_cons in H2 as [H2|H2]; [congruence|done].
    + rewrite IH, filter_cons_False; [done|]. cbn. by rewrite Hv.
Qed.

(** X21: the loss list and the loss-weight list given to [model.compile]
    have [n_outputs] entries; entry [k] is the loss and the weight of the
    [k]-th enabled target, the target whose value [nn_predict_imt] takes
    from head [k]; [metrics] has the one key [plaque], and has it exactly
    when the target [plaque] is enabled. *)
Theorem compile_args_aligned (tc : target_columns) :
  let '(losses, metrics, loss_weights) := compile_args tc in
  length losses = n_outputs tc
  /\ length loss_weights = n_outputs tc
  /\ (forall k name,
        enabled_names tc !! k = Some name ->
        exists t, (name, t) ∈ tc /\ predict t = true
                  /\ losses !! k = Some (loss t)
                  /\ loss_weights !! k = Some (weight t))
  /\ (forall key, is_Some (metrics !! key)
                  <-> key = "plaque" /\ "plaque" ∈ enabled_names tc).
Proof.
  unfold compile_args. rewrite compile_fold. cbn [app].
  unfold n_outputs, selected_columns, enabled_names.
  rewrite !length_map.
  split; [done|]. split; [done|]. split.
  - intros k name Hk. rewrite list_lookup_fmap in Hk.
    destruct (filter _ tc !! k) as [[key t]|] eqn:Hkt; [|done].
    cbn in Hk. injection Hk as <-.
    assert ((key, t) ∈ filter (fun kv => predict (snd kv) = true) tc) as Hin
      by (apply list_elem_of_lookup; eauto).
    apply list_elem_of_filter in Hin as [Hpred Hin].
    exists t. split; [done|]. split; [done|].
    by rewrite !list_lookup_fmap, Hkt.
  - intros key. case_bool_decide as Hplaque.
    + destruct (decide (key = "plaque")) as [->|Hne].
      * rewrite lookup_insert_eq. split; [done|eauto].
      * rewrite lookup_insert_ne, lookup_empty by done.
        split; [by intros [? ?]|by intros [? _]].
    + rewrite lookup_empty. split; [by intros [? ?]|by intros [_ ?]].
Qed.

(** X22: with [n] samples and a positive batch size, [steps_per_epoch]
    is the number of full batches: the samples of the last, partial batch,
    fewer than one batch, are dropped. *)
Theorem steps_per_epoch_full_batches (n batch_size : Z) :
  0 <= n -> 0 < batch_size ->
  exists steps,
    steps_per_epoch n batch_size = inr steps
    /\ 0 <= steps
    /\ steps * batch_size <= n < steps * batch_size + batch_size.
Proof.
  intros Hn Hb. unfold steps_per_epoch, floordiv.
  destruct (Z.eqb_spec batch_size 0) as [->|_]; [lia|].
  exists (n / batch_size). split; [done|].
  pose proof (Z.div_mod n batch_size ltac:(lia)) as Hdiv.
  pose proof (Z.mod_pos_bound n batch_size Hb) as Hmod.
  split; [apply Z.div_pos; lia|nia].
Qed.

Lemma steps_per_epoch_full_batches_witness :
  0 <= 103 /\ 0 < 4
  /\ exists steps,
       steps_per_epoch 103 4 = inr steps
       /\ 0 <= steps /\ steps * 4 <= 103 < steps * 4 + 4.
Proof.
  assert (0 <= 103) as Hn by lia. assert (0 < 4) as Hb by lia.
  split; [exact Hn|]. split; [exact Hb|].
  exact (steps_per_epoch_full_batches 103 4 Hn Hb).
Defined.

Lemma length_append (s t : string) :
  String.length (s +:+ t) = (String.length s + String.length t)%nat.
Proof.
  induction s as [|c s IH]; [done|].
  change (String c s +:+ t) with (String c (s +:+ t)).
  cbn [String.length]. by rewrite IH.
Qed.

Lemma append_inj_r (s s' t : string) : s +:+ t = s' +:+ t -> s = s'.
Proof.
  revert s'. induction s as [|c s IH]; intros [|c' s'] H; [done| | |].
  - apply (f_equal String.length) in H.
    rewrite !length_append in H. cbn in H. lia.
  - apply (f_equal String.length) in H.
    rewrite !length_append in H. cbn in H. lia.
  - injection H as -> H. f_equal. by apply IH.
Qed.

(** X23: two experiment ids that share a checkpoint file, a model file or
    a log directory are the same id. *)
Theorem artifact_paths_injective (id id' : string) :
  weights_path id = weights_path id'
  \/ model_path id = model_path id'
  \/ log_dir id = log_dir id' ->
  id = id'.
Proof.
  unfold weights_path, model_path, log_dir.
  intros [H|[H|H]];
    apply DataFrameFacts.append_inj_l in H; by apply append_inj_r in H.
Qed.

Lemma artifact_paths_injective_witness :
  weights_path "exp_CCA_img_512_max_plaque" = "checkpoints/weights_exp_CCA_img_512_max_plaque.h5"
  /\ "exp_CCA_img_512_max_plaque" = "exp_CCA_img_512_max_plaque".
Proof.
  split; [reflexivity|].
  exact (artifact_paths_injective "exp_CCA_img_512_max_plaque"
           "exp_CCA_img_512_max_plaque" (or_introl eq_refl)).
Defined.

Lemma derive_gt_plaque_frame_witness :
  exists df',
    Train.derive_gt_plaque Example.scans = inr df'
    /\ df_index df' = df_index Example.scans
    /\ df_columns df' !! "complete_path" = df_columns Example.scans !! "complete_path".
Proof.
  destruct (Train.derive_gt_plaque Example.scans) as [e|df'] eqn:Hrun;
    [by vm_compute in Hrun|].
  exists df'. split; [reflexivity|].
  destruct (derive_gt_plaque_frame Example.scans df' Hrun) as (Hidx & Hcols & _).
  split; [exact Hidx|]. by apply Hcols.
Defined.


(** A table whose measurement column holds an array of two elements and
    a missing measurement. *)
Lemma derive_gt_plaque_bad_cells :
  Train.derive_gt_plaque Example2.scans_arrays = inl ValueError
  /\ Train.derive_gt_plaque Example2.scans_missing = inl TypeError.
Proof. split; vm_compute; reflexivity. Qed.

Lemma substring_skip (pre s : string) (m : nat) :
  String.substring (String.length pre) m (pre +:+ s) = String.substring 0 m s.
Proof. induction pre as [|c pre IH]; [done|]. exact IH. Qed.

Lemma substring_take (body suf : string) :
  String.substring 0 (String.length body) (body +:+ suf) = body.
Proof.
  induction body as [|c body IH]; [by destruct suf|].
  change (String c body +:+ suf) with (String c (body +:+ suf)).
  cbn [String.length String.substring]. by rewrite IH.
Qed.

Lemma substring_length (s : string) :
  forall n m,
    String.length (String.substring n m s) = (m `min` (String.length s - n))%nat.
Proof.
  induction s as [|c s IH]; intros [|n] [|m]; cbn [String.substring String.length];
    rewrite ?IH; cbn [String.length]; lia.
Qed.

Lemma slice_length (s : string) :
  String.length (slice 4 (-1) s) = (String.length s - 5)%nat.
Proof.
  unfold slice. rewrite substring_length.
  change (4 <? 0) with false. change (-1 <? 0) with true. cbn beta iota.
  lia.
Qed.

(** X24: an index label made of four characters, a body and one last
    character is trimmed to its body. *)
Theorem trim_label_body (pre body suf : string) :
  String.length pre = 4%nat ->
  String.length suf = 1%nat ->
  trim_label (PStr (pre +:+ body +:+ suf)) = inr (PStr body).
Proof.
  intros Hpre Hsuf. unfold trim_label, slice. do 2 f_equal.
  rewrite !length_append, Hpre, Hsuf.
  change (4 <? 0) with false. change (-1 <? 0) with true. cbn beta iota.
  replace (Z.to_nat (Z.min 4 (Z.of_nat (4 + (String.length body + 1)))))
    with (String.length pre) by lia.
  replace (Z.to_nat (Z.max (-1 + Z.of_nat (4 + (String.length body + 1))) 0
                     - Z.min 4 (Z.of_nat (4 + (String.length body + 1)))))
    with (String.length body) by lia.
  by rewrite substring_skip, substring_take.
Qed.

Lemma trim_label_body_witness :
  String.length "img_" = 4%nat
  /\ String.length "'" = 1%nat
  /\ trim_label (PStr "img_0001.png'") = inr (PStr "0001.png").
Proof.
  split; [reflexivity|]. split; [reflexivity|].
  exact (trim_label_body "img_" "0001.png" "'" eq_refl eq_refl).
Defined.

Lemma slice_body (pre body suf : string) :
  String.length pre = 4%nat ->
  String.length suf = 1%nat ->
  slice 4 (-1) (pre +:+ body +:+ suf) = body.
Proof.
  intros Hpre Hsuf. unfold slice.
  rewrite !length_append, Hpre, Hsuf.
  change (4 <? 0) with false. change (-1 <? 0) with true. cbn beta iota.
  replace (Z.to_nat (Z.min 4 (Z.of_nat (4 + (String.length body + 1)))))
    with (String.length pre) by lia.
  replace (Z.to_nat (Z.max (-1 + Z.of_nat (4 + (String.length body + 1))) 0
                     - Z.min 4 (Z.of_nat (4 + (String.length body + 1)))))
    with (String.length body) by lia.
  by rewrite substring_skip, substring_take.
Qed.

Lemma slice_short (s : string) :
  (String.length s <= 5)%nat -> slice 4 (-1) s = "".
Proof.
  intros Hs. pose proof (slice_length s) as Hlen.
  destruct (slice 4 (-1) s); [done|]. cbn in Hlen. lia.
Qed.

(** X25: on a table whose index labels are all strings the index rewrite
    returns a table with the same columns and the same number of rows;
    the label of a row made of four characters, a body and one last
    character becomes its body, and a label of at most five characters
    becomes the empty string. *)
Theorem trim_index_spec (df : DataFrame) :
  Forall (fun x => exists s, x = PStr s) (df_index df) ->
  exists df',
    trim_index df = inr df'
    /\ df_columns df' = df_columns df
    /\ Pd.nrows df' = Pd.nrows df
    /\ (forall r pre body suf,
          df_index df !! r = Some (PStr (pre +:+ body +:+ suf)) ->
          String.length pre = 4%nat ->
          String.length suf = 1%nat ->
          df_index df' !! r = Some (PStr body))
    /\ (forall r s,
          df_index df !! r = Some (PStr s) ->
          (String.length s <= 5)%nat ->
          df_index df' !! r = Some (PStr "")).
Proof.
  intros Hstr. unfold trim_index.
  destruct (TrainFacts.apply_total trim_label (df_index df)) as [index Happly].
  { eapply Forall_impl; [exact Hstr|]. intros x [s ->]. by eexists. }
  rewrite Happly. cbn. eexists. split; [reflexivity|]. cbn.
  destruct (TrainFacts.apply_lookup _ _ _ Happly) as [Hlen Hcells].
  split; [done|]. split; [done|]. split.
  - intros r pre body suf Hr Hpre Hsuf.
    destruct (Hcells _ _ Hr) as (y & Hy & Hout).
    cbn in Hy. injection Hy as <-. by rewrite slice_body in Hout.
  - intros r s Hr Hs.
    destruct (Hcells _ _ Hr) as (y & Hy & Hout).
    cbn in Hy. injection Hy as <-. by rewrite slice_short in Hout.
Qed.

Lemma trim_index_spec_witness :
  Forall (fun x => exists s, x = PStr s) (df_index Example2.raw)
  /\ exists df',
       trim_index Example2.raw = inr df'
       /\ df_columns df' = df_columns Example2.raw
       /\ df_index df' !! 1%nat = Some (PStr "0002.png").
Proof.
  assert (Forall (fun x => exists s, x = PStr s) (df_index Example2.raw)) as Hstr
    by (repeat constructor; by eexists).
  split; [exact Hstr|].
  destruct (trim_index_spec Example2.raw Hstr)
    as (df' & Hrun & Hcols & _ & Hbody & _).
  exists df'. split; [exact Hrun|]. split; [exact Hcols|].
  exact (Hbody 1%nat "img_" "0002.png" "'" eq_refl eq_refl eq_refl).
Defined.

End OrchestratorExtra.
